(** * Calabi-Yau dataset pipeline: dedup, split, normalisation, residual layer

    A shallow embedding of [generate_dataset.py] and [model.py].

    - Python lists, tuples and numpy arrays of rank one are Rocq lists; an
      array of rank two is the list of its rows.
    - The [defaultdict] [CY_dict] is an association list in insertion order
      (the order [dict.values()] returns).
    - Python [int] is [Z]; Python [float] is IEEE binary64, taken from the
      specification of floating-point arithmetic in [SpecFloat].
    - The geometry library (CYTools), the task runner (ray) and the random
      sources are parameters: sections quantify over what they return. *)

From Stdlib Require Import ZArith QArith Qpower Qcanon Qround Lia.
From Stdlib Require Import SpecFloat.
From stdpp Require Import base decidable list sorting gmap.

Local Open Scope Z_scope.

(** ** Error results

    A call into the geometry library either returns or raises. *)

Inductive res (A : Type) : Type :=
  | Ok (a : A)
  | Raise.
Arguments Ok {A} a.
Arguments Raise {A}.

Global Instance res_ret : MRet res := fun _ a => Ok a.
Global Instance res_bind : MBind res := fun _ _ k m =>
  match m with
  | Ok a => k a
  | Raise => Raise
  end.

(** [[f(x) for x in l]] where [f] may raise: the first exception escapes. *)
Definition res_map {A B} (f : A → res B) (l : list A) : res (list B) :=
  mapM f l.

(** ** numpy: sorting a rank-two integer array along axis 0 *)

Module Np.

(** A rank-two array is the list of its rows; [ncols] reads the second
    component of its shape off the first row. *)
Abbreviation matrix := (list (list Z)).

Definition ncols (a : matrix) : nat :=
  match a with
  | [] => 0%nat
  | r :: _ => length r
  end.

Definition rectangular (d : nat) (a : matrix) : Prop :=
  Forall (fun r => length r = d) a.

(** [a[:, j]] *)
Definition column (j : nat) (a : matrix) : list Z :=
  map (fun r => nth j r 0) a.

Definition columns (d : nat) (a : matrix) : list (list Z) :=
  map (fun j => column j a) (seq 0 d).

(** The array with [n] rows whose columns are [cs]. *)
Definition of_columns (n : nat) (cs : list (list Z)) : matrix :=
  map (fun i => map (fun c => nth i c 0) cs) (seq 0 n).

(** [np.sort] on a one-dimensional integer array: ascending order. *)
Definition sort1 (l : list Z) : list Z := merge_sort Z.le l.

(** [np.sort(a, axis=0)]: every column is sorted on its own. *)
Definition sort_axis0 (a : matrix) : matrix :=
  of_columns (length a) (map sort1 (columns (ncols a) a)).

End Np.

(** ** ManifoldFingerprint

    Lines 52-54 of [generate_CYs]: the coo tensor is sorted along axis 0 and
    turned into a tuple of tuples. Tuples are lists here, so the conversion
    [tuple(map(tuple, a))] copies the rows. *)

Definition Fingerprint := list (list Z).

Definition tuple_of_rows (a : Np.matrix) : Fingerprint := map (fun r => r) a.

Definition fingerprint (intersection_numbers : Np.matrix) : Fingerprint :=
  tuple_of_rows (Np.sort_axis0 intersection_numbers).

(** ** Python floats: IEEE binary64 *)

Module Float64.

Definition prec : Z := 53.
Definition emax : Z := 1024.

Definition float := spec_float.

Definition mul : float → float → float := SFmul prec emax.
Definition div : float → float → float := SFdiv prec emax.

(** The nearest binary64 to an integer (ties to even). *)
Definition round_int (n : Z) : float := binary_normalize prec emax n 0 false.

(** [float(n)]: [OverflowError] when [n] is beyond the finite range. *)
Definition of_int (n : Z) : res float :=
  match round_int n with
  | S754_infinity _ => Raise
  | x => Ok x
  end.

(** A decimal literal [p/q] with [p] and [q] exactly representable: the
    correctly rounded quotient is the binary64 nearest to the decimal. *)
Definition literal (p q : Z) : float := div (round_int p) (round_int q).

(** [int(x)]: truncation towards zero; [ValueError] on NaN and
    [OverflowError] on an infinity. *)
Definition to_int (x : float) : res Z :=
  match x with
  | S754_zero _ => Ok 0
  | S754_finite s m e => Ok (cond_Zopp s (Z.shiftl (Z.pos m) e))
  | S754_infinity _ | S754_nan => Raise
  end.

(** [n * x] with [n] an [int]: the integer is converted first. *)
Definition int_mul (n : Z) (x : float) : res float :=
  y ← of_int n; Ok (mul y x).

(** The rational number a finite float denotes. *)
Definition value (x : float) : Q :=
  match x with
  | S754_finite s m e => inject_Z (cond_Zopp s (Z.pos m)) * Qpower 2 e
  | _ => 0
  end%Q.

Definition is_finite (x : float) : bool :=
  match x with
  | S754_zero _ | S754_finite _ _ _ => true
  | _ => false
  end.

(** [n < x] with [n] an [int]: Python compares the exact values; every
    comparison with NaN is false. *)
Definition int_lt (n : Z) (x : float) : bool :=
  match x with
  | S754_nan => false
  | S754_infinity s => negb s
  | _ => negb (Qle_bool (value x) (inject_Z n))
  end.

Definition leb : float → float → bool := SFleb.

Definition zero : float := S754_zero false.
Definition one : float := round_int 1.

End Float64.

(** The bits shifted out so far are not all zero. *)
Definition inexact (mrs : shr_record) : bool := shr_r mrs || shr_s mrs.

(** ** Python list slicing, [l[:n]] and [l[n:]]

    A negative bound counts from the end; every bound is clipped to the
    list. *)

Definition slice_index (len : nat) (n : Z) : nat :=
  if n <? 0 then Z.to_nat (Z.max 0 (Z.of_nat len + n))
  else Z.to_nat (Z.min n (Z.of_nat len)).

Definition slice_to {A} (n : Z) (l : list A) : list A :=
  take (slice_index (length l) n) l.

Definition slice_from {A} (n : Z) (l : list A) : list A :=
  drop (slice_index (length l) n) l.

(** ** Data model *)

Definition GKZVector := list Z.
Definition Label := Float64.float.

(** [[gkz, log10(volume)]]: one entry per triangulation. *)
Definition DatasetEntry := (GKZVector * Label)%type.

(** [[intersection_numbers, gkz, log10(volume)]]: what a worker emits. *)
Record CYDatum := mkDatum {
  d_fingerprint : Fingerprint;
  d_gkz : GKZVector;
  d_label : Label
}.

(** [CY_dict]: keys in insertion order, each with the entries appended
    under it. *)
Definition DedupTable := list (Fingerprint * list DatasetEntry).

Definition dict_keys (t : DedupTable) : list Fingerprint := t.*1.
Definition dict_values (t : DedupTable) : list (list DatasetEntry) := t.*2.

(** [CY_dict[k] += [e]] on a [defaultdict(lambda: [])]: a missing key is
    created with the empty list, at the end; the entry is appended. *)
Fixpoint dict_append (k : Fingerprint) (e : DatasetEntry) (t : DedupTable)
  : DedupTable :=
  match t with
  | [] => [(k, [e])]
  | (k', es) :: t' =>
      if decide (k = k') then (k', es ++ [e]) :: t'
      else (k', es) :: dict_append k e t'
  end.

(** The keys of [t] are distinct and among [S]. *)
Definition table_in (S : list Fingerprint) (t : DedupTable) : Prop :=
  NoDup (dict_keys t) ∧ dict_keys t ⊆ S.

(** ** The worker task [generate_CYs] *)

Inductive backend := cgal | qhull.

(** One call of [POLY.random_triangulations_fast(N, c=2.5, as_list=True,
    seed=seed, progress_bar=False, backend=b)]. *)
Record sampling_call := mkCall {
  call_N : Z;
  call_seed : Z;
  call_backend : backend
}.

(** The geometry library, as far as the task uses it: the sampler of
    triangulations of [POLY], the accessors of a triangulation and of its
    Calabi-Yau, and [np.log10]. Each call returns or raises. *)
Class CYTools := {
  Triangulation : Type;
  CY : Type;
  Tip : Type;
  random_triangulations_fast : sampling_call → res (list Triangulation);
  gkz_phi : Triangulation → res (list Z);
  get_cy : Triangulation → res CY;
  intersection_numbers : CY → res Np.matrix;
  tip_of_stretched_cone : CY → res Tip;
  compute_cy_volume : CY → Tip → res Float64.float;
  log10 : Float64.float → Float64.float
}.

Section Worker.

Context `{CYTools}.

(** The body of the [for t in triangulations_list] loop (lines 50-57). *)
Definition cy_datum (t : Triangulation) : res CYDatum :=
  phi ← gkz_phi t;
  let gkz := drop 1 phi in
  cy ← get_cy t;
  coo ← intersection_numbers cy;
  let fp := fingerprint coo in
  kahler_cone_tip ← tip_of_stretched_cone cy;
  cy_volume ← compute_cy_volume cy kahler_cone_tip;
  Ok (mkDatum fp gkz (log10 cy_volume)).

(** [generate_CYs(N)] with the seed it drew. The first component logs
    the sampling calls made, in order; the second is what the task
    returns, or [Raise] when an exception leaves it. *)
Definition generate_CYs (N seed : Z)
  : list sampling_call * res (list CYDatum) :=
  let primary := mkCall N seed cgal in
  let fallback := mkCall N seed qhull in
  match random_triangulations_fast primary with
  | Ok triangulations_list =>
      ([primary], res_map cy_datum triangulations_list)
  | Raise =>
      match random_triangulations_fast fallback with
      | Ok triangulations_list =>
          ([primary; fallback], res_map cy_datum triangulations_list)
      | Raise => ([primary; fallback], Ok [])
      end
  end.

(** The sampler the loop sees when the [i]-th task draws [seeds i]. *)
Definition worker_remote (seeds : nat → Z) (i : nat) (N : Z)
  : res (list CYDatum) :=
  (generate_CYs N (seeds i)).2.

End Worker.

(** ** The sampling loop (lines 60-69) *)

(** [[d[1], d[2]]] *)
Definition entry_of (d : CYDatum) : DatasetEntry := (d_gkz d, d_label d).

(** [for d in cy_data: CY_dict[d[0]] += [[d[1], d[2]]]] *)
Definition merge_task (t : DedupTable) (cy_data : list CYDatum) : DedupTable :=
  foldl (fun t d => dict_append (d_fingerprint d) (entry_of d) t) t cy_data.

(** [for cy_data in cy_data_ray: ...] *)
Definition merge_round (t : DedupTable) (cy_data_ray : list (list CYDatum))
  : DedupTable :=
  foldl merge_task t cy_data_ray.

Record loop_state := mkState {
  CY_dict : DedupTable;
  triangulation_ctr : Z;
  tasks_run : nat
}.

Definition initial_state : loop_state := mkState [] 0 0.

(** How a run of the loop ends: the [while] condition failed, a task
    raised inside [ray.get], or the fuel of the model ran out. *)
Inductive outcome :=
  | Done (st : loop_state)
  | Aborted
  | OutOfFuel.

Section SamplingLoop.

(** [remote i N]: what the [i]-th task dispatched in the run returns for
    [generate_CYs.remote(N)]. *)
Variable remote : nat → Z → res (list CYDatum).

Variable num_CYs : Float64.float.
Variables max_dataset_size num_threads compute_chunk_size : Z.

Definition loop_cond (st : loop_state) : bool :=
  Float64.int_lt (Z.of_nat (length (CY_dict st))) num_CYs
  && (triangulation_ctr st <? max_dataset_size).

(** [ray.get([generate_CYs.remote(compute_chunk_size)
              for _ in range(num_threads)])] *)
Definition ray_get (first : nat) : res (list (list CYDatum)) :=
  res_map (fun i => remote (first + i) compute_chunk_size)
          (seq 0 (Z.to_nat num_threads)).

(** One pass through the body of the [while]. *)
Definition loop_body (st : loop_state) : res loop_state :=
  cy_data_ray ← ray_get (tasks_run st);
  Ok (mkState (merge_round (CY_dict st) cy_data_ray)
              (triangulation_ctr st + num_threads * compute_chunk_size)
              (tasks_run st + Z.to_nat num_threads)).

Fixpoint sampling_loop (fuel : nat) (st : loop_state) : outcome :=
  match fuel with
  | O => OutOfFuel
  | S fuel' =>
      if loop_cond st then
        match loop_body st with
        | Ok st' => sampling_loop fuel' st'
        | Raise => Aborted
        end
      else Done st
  end.

End SamplingLoop.

(** ** Shuffle, split and flatten (lines 71-82) *)

Section Shuffle.

Context {A : Type}.

(** [randbelow n] is what the generator answers when asked for an integer
    below [n]; it is reduced modulo [n] so that every oracle is a
    generator. *)
Variable randbelow : nat → nat.

(** [x[i], x[j] = x[j], x[i]] *)
Definition swap (i j : nat) (x : list A) : list A :=
  match x !! i, x !! j with
  | Some a, Some b => <[j:=a]> (<[i:=b]> x)
  | _, _ => x
  end.

(** [random.shuffle]: for [i] from [len(x)-1] down to [1], swap [x[i]] with
    [x[randbelow(i+1)]]. *)
Fixpoint shuffle_from (i : nat) (x : list A) : list A :=
  match i with
  | O => x
  | S i' => shuffle_from i' (swap i (randbelow (S i) mod S i) x)
  end.

Definition random_shuffle (x : list A) : list A :=
  shuffle_from (length x - 1) x.

End Shuffle.

(** [int(len(dataset) * train_test_split)] *)
Definition train_dataset_size (len : nat) (train_test_split : Float64.float)
  : res Z :=
  y ← Float64.int_mul (Z.of_nat len) train_test_split;
  Float64.to_int y.

(** [[d for c in dataset for d in c]] *)
Definition flatten {A} (dataset : list (list A)) : list A := concat dataset.

(** Lines 76-82 on the shuffled [dataset]: the pair of the flattened train
    and test datasets. The entry type is left open: the code never looks
    inside an entry here. *)
Definition split_dataset {A} (dataset : list (list A))
    (train_test_split : Float64.float) : res (list A * list A) :=
  size ← train_dataset_size (length dataset) train_test_split;
  Ok (flatten (slice_to size dataset), flatten (slice_from size dataset)).

(** Lines 71-82 on the table the loop left. *)
Definition split_pipeline (randbelow : nat → nat) (t : DedupTable)
    (train_test_split : Float64.float)
  : res (list DatasetEntry * list DatasetEntry) :=
  split_dataset (random_shuffle randbelow (dict_values t)) train_test_split.

(** ** Normalisation (lines 85-94) *)






Section Normalise.

(** numpy's reductions of one column, [mean] and [std]. *)
Variables np_mean np_std : list Z → Float64.float.






End Normalise.

(** ** The predictor model ([model.py])

    Tensor arithmetic is exact here: an activation is a rational number, so
    the laws of a field hold. A tensor is one sample, a vector of
    activations; a batch is treated row by row. *)

Module Model.

Local Open Scope Qc_scope.

Definition tensor := list Qc.

(** [nn.Linear(in_features, out_features)]: [weight] has one row per
    output. *)
Record Linear := mkLinear {
  weight : list (list Qc);
  bias : list Qc
}.

Definition linear_shape (in_features out_features : nat) (l : Linear) : Prop :=
  length (weight l) = out_features
  ∧ length (bias l) = out_features
  ∧ Forall (fun w => length w = in_features) (weight l).

Definition dot (u v : list Qc) : Qc := foldr Qcplus 0 (zip_with Qcmult u v).

(** [self.dense(x)], that is [x @ weight.T + bias]; a [RuntimeError] when
    the size of [x] is not [in_features]. *)
Definition linear (l : Linear) (x : tensor) : res tensor :=
  if decide (Forall (fun w => length w = length x) (weight l)
             ∧ length (bias l) = length (weight l))
  then Ok (zip_with Qcplus (map (fun w => dot w x) (weight l)) (bias l))
  else Raise.

(** [F.relu] *)
Definition relu1 (v : Qc) : Qc := if decide (0 < v) then v else 0.
Definition relu (x : tensor) : tensor := map relu1 x.

(** [nn.Dropout(p)]: the identity in evaluation mode; in training mode the
    element at index [i] is kept and scaled by [1/(1-p)] when [keep i], and
    zeroed otherwise. *)
Inductive mode := Training (keep : nat → bool) | Evaluation.

Definition dropout (p : Qc) (m : mode) (y : tensor) : tensor :=
  match m with
  | Evaluation => y
  | Training keep => imap (fun i v => if keep i then v / (1 - p) else 0) y
  end.

(** [x + y] on tensors; a [RuntimeError] when the sizes differ. *)
Definition tensor_add (x y : tensor) : res tensor :=
  if decide (length x = length y) then Ok (zip_with Qcplus x y) else Raise.

Record ResDenseLayer := mkLayer {
  dense : Linear;
  alpha : Qc;
  dropout_p : Qc
}.

(** [ResDenseLayer.__init__]: [dense0] is the freshly initialised
    [nn.Linear(width, width)]; [alpha] is [torch.zeros(1)]. *)
Definition ResDenseLayer_init (dense0 : Linear) (dropout_rate : Qc)
  : ResDenseLayer :=
  mkLayer dense0 0 dropout_rate.

(** [ResDenseLayer.forward] *)
Definition layer_forward (l : ResDenseLayer) (m : mode) (x : tensor)
  : res tensor :=
  d ← linear (dense l) x;
  let y := map (Qcmult (alpha l)) d in
  y ← tensor_add x (dropout (dropout_p l) m y);
  Ok (relu y).

(** [ResDenseBlock]: the layers of the [ModuleList], each with the dropout
    mask drawn for it in this forward pass. *)
Definition ResDenseBlock := list ResDenseLayer.


Fixpoint block_forward (b : ResDenseBlock) (ms : nat → mode) (x : tensor)
  : res tensor :=
  match b with
  | [] => Ok x
  | l :: b' =>
      y ← layer_forward l (ms 0%nat) x;
      block_forward b' (fun i => ms (S i)) y
  end.

Record ResDenseNet := mkNet {
  densefirst : Linear;
  rdb1 : ResDenseBlock;
  denselast : Linear
}.

Definition net_forward (n : ResDenseNet) (ms : nat → mode) (x : tensor)
  : res tensor :=
  y ← linear (densefirst n) x;
  let y := relu y in
  y ← block_forward (rdb1 n) ms y;
  linear (denselast n) y.

End Model.

(** ** Test doubles for the sampler *)

Definition mock_datum (n : Z) : CYDatum :=
  mkDatum [[0; 0; 0; n]] [n] Float64.zero.

(** Ten triangulations per call, over three fingerprints. *)
Definition mock_three (i : nat) (N : Z) : res (list CYDatum) :=
  Ok (mock_datum <$> [0; 1; 2; 0; 1; 2; 0; 1; 2; 0]).

(** As many triangulations as asked for, all of one manifold per call. *)
Definition mock_full (i : nat) (N : Z) : res (list CYDatum) :=
  Ok (replicate (Z.to_nat N) (mock_datum (Z.of_nat i))).

(** One triangulation per call, a new fingerprint each time. *)
Definition mock_fresh (i : nat) (N : Z) : res (list CYDatum) :=
  Ok [mock_datum (Z.of_nat i)].

(** ** The split index, in the words of the specification *)

(** [floor(K * split_ratio)] with the product computed as Python computes
    it, in binary64. *)
Definition floor_of_product (K : Z) (split_ratio : Float64.float) : res Z :=
  y ← Float64.int_mul K split_ratio;
  if Float64.is_finite y then Ok (Qfloor (Float64.value y)) else Raise.

(** The floor of the exact product of [K] and the number [split_ratio]
    denotes. *)
Definition floor_of_exact_product (K : Z) (split_ratio : Float64.float) : Z :=
  Qfloor (inject_Z K * Float64.value split_ratio).

(** A small run: the sampler over three fingerprints, one worker, a target
    of three manifolds; then the shuffle in which the generator always
    answers 0, and the split at 0.8. *)
Definition demo_state : loop_state :=
  Eval vm_compute in
    match sampling_loop mock_three (Float64.round_int 3) 100 1 10 10
            initial_state with
    | Done st => st
    | _ => initial_state
    end.

Definition demo_split : list DatasetEntry * list DatasetEntry :=
  Eval vm_compute in
    match split_pipeline (fun _ => 0%nat) (CY_dict demo_state)
            (Float64.literal 8 10) with
    | Ok p => p
    | Raise => ([], [])
    end.

(** ** A test double for the geometry library

    Triangulations are integers; [cgal] always fails; [qhull] fails on odd
    seeds and otherwise returns two triangulations. *)

Definition mock_sampling (c : sampling_call) : res (list Z) :=
  match call_backend c with
  | cgal => Raise
  | qhull => if Z.odd (call_seed c) then Raise else Ok [1; 2]
  end.

Definition mock_library : CYTools := {|
  Triangulation := Z;
  CY := Z;
  Tip := Z;
  random_triangulations_fast := mock_sampling;
  gkz_phi := fun t => Ok [0; t; t + 1];
  get_cy := fun t => Ok t;
  intersection_numbers := fun cy => Ok [[0; 0; 1; cy]; [0; 0; 0; 1]];
  tip_of_stretched_cone := fun cy => Ok cy;
  compute_cy_volume := fun cy tip => Ok (Float64.round_int cy);
  log10 := fun v => v
|}.

Definition mock_generate_CYs (N seed : Z)
  : list sampling_call * res (list CYDatum) :=
  @generate_CYs mock_library N seed.

(** ** A small model at initialisation and after a training step *)

Module Demo.

Import Model.
Local Open Scope Qc_scope.

Definition q (n : Z) (d : positive) : Qc := Q2Qc (n # d).

Definition dense0 : Linear :=
  mkLinear [[q 1 2; q (-3) 1]; [q 2 1; q 1 4]] [q 1 1; q (-1) 1].

Definition x : tensor := [q (-1) 1; q 2 1].

Definition keep_even : mode := Training Nat.even.

Definition layer_init : ResDenseLayer := ResDenseLayer_init dense0 (q 1 2).

(** The same layer once training has moved the gate to [1/2]. *)
Definition layer_trained : ResDenseLayer := mkLayer dense0 (q 1 2) (q 1 2).

(** The activations as plain fractions, for reading results off. *)
Definition fractions (r : res tensor) : res (list Q) :=
  match r with
  | Ok y => Ok (map this y)
  | Raise => Raise
  end.

End Demo.

(** ** Observations used to state further properties *)

(** [CY_dict.get(k, [])]: the entries stored under [k], none when [k] is
    not a key. *)
Fixpoint dict_get (k : Fingerprint) (t : DedupTable) : list DatasetEntry :=
  match t with
  | [] => []
  | (k', es) :: t' => if decide (k = k') then es else dict_get k t'
  end.

(** The data of [cy_data] whose fingerprint is [k], in order. *)
Definition with_fingerprint (k : Fingerprint) (cy_data : list CYDatum)
  : list CYDatum :=
  filter (fun d => d_fingerprint d = k) cy_data.

(** A geometry library whose sampler answers at once with three
    triangulations and whose volume computation fails on the second. *)
Definition mock_library_degenerate : CYTools := {|
  Triangulation := Z;
  CY := Z;
  Tip := Z;
  random_triangulations_fast := fun _ => Ok [1; 2; 3];
  gkz_phi := fun t => Ok [0; t; t + 1];
  get_cy := fun t => Ok t;
  intersection_numbers := fun cy => Ok [[0; 0; 1; cy]; [0; 0; 0; 1]];
  tip_of_stretched_cone := fun cy => Ok cy;
  compute_cy_volume := fun cy tip =>
    if cy =? 2 then Raise else Ok (Float64.round_int cy);
  log10 := fun v => v
|}.

(** A sampler whose second task raises. *)
Definition mock_raising (i : nat) (N : Z) : res (list CYDatum) :=
  if decide (i = 1%nat) then Raise else Ok [].

(** A geometry library whose sampler fails with both backends. *)
Definition mock_library_failing : CYTools := {|
  Triangulation := Z;
  CY := Z;
  Tip := Z;
  random_triangulations_fast := fun _ => Raise;
  gkz_phi := fun t => Ok [0; t];
  get_cy := fun t => Ok t;
  intersection_numbers := fun cy => Ok [[0; 0; 0; cy]];
  tip_of_stretched_cone := fun cy => Ok cy;
  compute_cy_volume := fun cy tip => Ok (Float64.round_int cy);
  log10 := fun v => v
|}.

(** A small network: three features, width two, depth two. *)
Module DemoNet.

Import Model.

Definition first : Linear :=
  mkLinear [[Demo.q 1 1; Demo.q 0 1; Demo.q (-1) 2];
            [Demo.q 1 3; Demo.q 2 1; Demo.q 0 1]]
           [Demo.q 0 1; Demo.q 1 1].

Definition last : Linear := mkLinear [[Demo.q 1 1; Demo.q (-2) 1]] [Demo.q 1 2].

Definition sample : tensor := [Demo.q 1 1; Demo.q 2 1; Demo.q 4 1].


(** After training moved the gates. *)
Definition net_trained : ResDenseNet :=
  mkNet first [Demo.layer_trained; Demo.layer_trained] last.

End DemoNet.

(** * Properties *)

(** ** Fingerprints *)

Section FingerprintFacts.

Import Np.

Lemma sort1_Permutation (l l' : list Z) : l ≡ₚ l' → sort1 l = sort1 l'.
Proof.
  intros Hp. unfold sort1.
  apply (Sorted_unique Z.le).
  - apply Sorted_merge_sort; apply _.
  - apply Sorted_merge_sort; apply _.
  - by rewrite !merge_sort_Permutation.
Qed.

Lemma ncols_rectangular d a : rectangular d a → a ≠ [] → ncols a = d.
Proof. destruct 1; [done | by intros _]. Qed.

Lemma rectangular_Permutation d a a' :
  a ≡ₚ a' → rectangular d a → rectangular d a'.
Proof. intros Hp. unfold rectangular. by rewrite Hp. Qed.

Lemma column_Permutation j a a' : a ≡ₚ a' → column j a ≡ₚ column j a'.
Proof. intros Hp. unfold column. by apply fmap_Permutation. Qed.

(** Two arrays of one shape whose columns agree as multisets sort to the
    same array. *)
Lemma sort_axis0_columns d a a' :
  rectangular d a → rectangular d a' → length a = length a' →
  (∀ j, (j < d)%nat → column j a' ≡ₚ column j a) →
  sort_axis0 a' = sort_axis0 a.
Proof.
  intros Ha Ha' Hlen Hcols. unfold sort_axis0. rewrite <- Hlen.
  destruct a as [|r a], a' as [|r' a']; try done.
  rewrite (ncols_rectangular d (r :: a)), (ncols_rectangular d (r' :: a'))
    by done.
  f_equal. unfold columns. rewrite !map_map.
  apply map_ext_in. intros j Hj%in_seq.
  apply sort1_Permutation, Hcols. lia.
Qed.

End FingerprintFacts.

(** C3. Fingerprint determinism: the fingerprint of an intersection-number
    tensor in coo format does not depend on the order of its rows. For every
    array [a] of [d] columns and every permutation [a'] of its rows, sorting
    along axis 0 and converting to a nested tuple gives the same value on
    [a'] as on [a]. *)
Theorem fingerprint_row_order d (a a' : Np.matrix) :
  Np.rectangular d a → a' ≡ₚ a → fingerprint a' = fingerprint a.
Proof.
  intros Ha Hp. unfold fingerprint. f_equal.
  apply (sort_axis0_columns d); try done.
  - by apply (rectangular_Permutation d a).
  - by rewrite Hp.
  - intros j _. by apply column_Permutation.
Qed.

Lemma fingerprint_row_order_witness :
  Np.rectangular 4 [[0;0;1;5]; [0;1;1;2]; [1;1;2;-3]]
  ∧ [[1;1;2;-3]; [0;0;1;5]; [0;1;1;2]] ≡ₚ [[0;0;1;5]; [0;1;1;2]; [1;1;2;-3]]
  ∧ fingerprint [[1;1;2;-3]; [0;0;1;5]; [0;1;1;2]]
    = fingerprint [[0;0;1;5]; [0;1;1;2]; [1;1;2;-3]].
Proof.
  assert (Hr : Np.rectangular 4 [[0;0;1;5]; [0;1;1;2]; [1;1;2;-3]])
    by (repeat constructor).
  assert (Hp : [[1;1;2;-3]; [0;0;1;5]; [0;1;1;2]]
               ≡ₚ [[0;0;1;5]; [0;1;1;2]; [1;1;2;-3]]).
  { change ([[1;1;2;-3]] ++ [[0;0;1;5]; [0;1;1;2]]
            ≡ₚ [[0;0;1;5]; [0;1;1;2]] ++ [[1;1;2;-3]]).
    apply Permutation_app_comm. }
  split; [exact Hr | split; [exact Hp |]].
  exact (fingerprint_row_order 4 _ _ Hr Hp).
Defined.

(** C10. The fingerprint is invariant under permutations applied to each
    column independently, not only under permutations of whole rows: two
    arrays of one shape whose columns agree as multisets have one
    fingerprint. So there are distinct coo tensors, not row permutations of
    each other, with the same fingerprint: the association between the index
    columns and the value column within a row is not preserved. *)
Theorem fingerprint_columnwise :
  (∀ d (a a' : Np.matrix),
     Np.rectangular d a → Np.rectangular d a' → length a = length a' →
     (∀ j, (j < d)%nat → Np.column j a' ≡ₚ Np.column j a) →
     fingerprint a' = fingerprint a)
  ∧ (∃ a a' : Np.matrix,
       Np.rectangular 4 a ∧ Np.rectangular 4 a' ∧ length a = length a'
       ∧ (∀ j, Np.column j a' ≡ₚ Np.column j a)
       ∧ a' ≠ a ∧ ¬ a' ≡ₚ a
       ∧ fingerprint a' = fingerprint a).
Proof.
  split.
  - intros d a a' Ha Ha' Hlen Hcols. unfold fingerprint. f_equal.
    by apply (sort_axis0_columns d).
  - exists [[0;0;0;5]; [1;1;1;7]], [[0;0;0;7]; [1;1;1;5]].
    split; [repeat constructor |].
    split; [repeat constructor |].
    split; [reflexivity |].
    split.
    { intros [|[|[|[|j]]]]; simpl; try reflexivity. apply perm_swap. }
    split; [discriminate |].
    split; [| reflexivity].
    intros Hp.
    assert (Hin : [0;0;0;7] ∈ [[0;0;0;5]; [1;1;1;7]]).
    { rewrite <- Hp. left. }
    rewrite !elem_of_cons, elem_of_nil in Hin.
    destruct Hin as [?|[?|[]]]; discriminate.
Qed.

Lemma fingerprint_columnwise_witness :
  Np.rectangular 4 [[0;0;0;5]; [1;1;1;7]]
  ∧ Np.rectangular 4 [[0;0;0;7]; [1;1;1;5]]
  ∧ fingerprint [[0;0;0;7]; [1;1;1;5]] = fingerprint [[0;0;0;5]; [1;1;1;7]].
Proof.
  assert (Hr : Np.rectangular 4 [[0;0;0;5]; [1;1;1;7]]) by (repeat constructor).
  assert (Hr' : Np.rectangular 4 [[0;0;0;7]; [1;1;1;5]]) by (repeat constructor).
  split; [exact Hr | split; [exact Hr' |]].
  apply (proj1 fingerprint_columnwise 4%nat _ _ Hr Hr' eq_refl).
  intros [|[|[|[|j]]]] Hj; simpl; first [reflexivity | apply perm_swap].
Defined.

(** ** The dedup table *)

Section DictFacts.

Implicit Types (t : DedupTable) (k : Fingerprint) (e : DatasetEntry).

Lemma dict_append_keys k e t :
  dict_keys (dict_append k e t)
  = if decide (k ∈ dict_keys t) then dict_keys t else dict_keys t ++ [k].
Proof.
  unfold dict_keys. induction t as [|[k' es] t IH]; [done |].
  cbn [dict_append]. destruct (decide (k = k')) as [->|Hne].
  - rewrite !fmap_cons. cbn [fst]. rewrite decide_True; [done | left].
  - rewrite !fmap_cons, IH. cbn [fst].
    destruct (decide (k ∈ t.*1)) as [Hin|Hnin].
    + rewrite decide_True; [done | by right].
    + rewrite decide_False; [done |]. rewrite elem_of_cons. by intros [?|?].
Qed.

Lemma dict_append_NoDup k e t :
  NoDup (dict_keys t) → NoDup (dict_keys (dict_append k e t)).
Proof.
  intros Hnd. rewrite dict_append_keys. case_decide; [done |].
  apply NoDup_app. split_and!; [done | | apply NoDup_singleton].
  intros x Hx ->%list_elem_of_singleton. done.
Qed.

Lemma dict_append_keys_subseteq k e t (S : list Fingerprint) :
  k ∈ S → dict_keys t ⊆ S → dict_keys (dict_append k e t) ⊆ S.
Proof.
  intros Hk Ht. rewrite dict_append_keys. case_decide; [done |].
  intros x [?| ->%list_elem_of_singleton]%elem_of_app; auto.
Qed.

(** Appending under a key adds the entry to the multiset of all entries and
    nothing else. *)
Lemma dict_append_entries k e t :
  flatten (dict_values (dict_append k e t)) ≡ₚ flatten (dict_values t) ++ [e].
Proof.
  unfold flatten, dict_values. induction t as [|[k' es] t IH]; simpl; [done |].
  destruct (decide (k = k')); simpl.
  - rewrite <- !(assoc_L (++)). f_equiv. apply Permutation_app_comm.
  - by rewrite IH, (assoc_L (++)).
Qed.

Lemma merge_task_NoDup t cy_data :
  NoDup (dict_keys t) → NoDup (dict_keys (merge_task t cy_data)).
Proof.
  unfold merge_task. revert t.
  induction cy_data as [|d l IH]; intros t Ht; simpl; [done |].
  by apply IH, dict_append_NoDup.
Qed.

Lemma merge_round_NoDup t cy_data_ray :
  NoDup (dict_keys t) → NoDup (dict_keys (merge_round t cy_data_ray)).
Proof.
  unfold merge_round. revert t.
  induction cy_data_ray as [|c l IH]; intros t Ht; simpl; [done |].
  by apply IH, merge_task_NoDup.
Qed.

Lemma merge_task_keys_subseteq t cy_data (S : list Fingerprint) :
  Forall (fun d => d_fingerprint d ∈ S) cy_data →
  dict_keys t ⊆ S → dict_keys (merge_task t cy_data) ⊆ S.
Proof.
  unfold merge_task. intros Hall. revert t.
  induction Hall as [|d l Hd _ IH]; intros t Ht; simpl; [done |].
  by apply IH, dict_append_keys_subseteq.
Qed.

Lemma merge_round_keys_subseteq t cy_data_ray (S : list Fingerprint) :
  Forall (Forall (fun d => d_fingerprint d ∈ S)) cy_data_ray →
  dict_keys t ⊆ S → dict_keys (merge_round t cy_data_ray) ⊆ S.
Proof.
  unfold merge_round. intros Hall. revert t.
  induction Hall as [|c l Hc _ IH]; intros t Ht; simpl; [done |].
  by apply IH, merge_task_keys_subseteq.
Qed.

Lemma merge_task_entries t cy_data :
  flatten (dict_values (merge_task t cy_data))
  ≡ₚ flatten (dict_values t) ++ (entry_of <$> cy_data).
Proof.
  unfold merge_task. revert t.
  induction cy_data as [|d l IH]; intros t; simpl.
  - by rewrite (right_id_L [] (++)).
  - rewrite IH, dict_append_entries, <- (assoc_L (++)). done.
Qed.

(** Merging a round adds every entry the tasks returned, and nothing
    else. *)
Lemma merge_round_entries t cy_data_ray :
  flatten (dict_values (merge_round t cy_data_ray))
  ≡ₚ flatten (dict_values t) ++ (entry_of <$> concat cy_data_ray).
Proof.
  unfold merge_round. revert t.
  induction cy_data_ray as [|c l IH]; intros t; simpl.
  - by rewrite (right_id_L [] (++)).
  - rewrite IH, merge_task_entries, fmap_app, <- (assoc_L (++)). done.
Qed.

Lemma length_concat_uniform {A} (n : nat) (ls : list (list A)) :
  Forall (fun l => length l = n) ls →
  length (concat ls) = (length ls * n)%nat.
Proof.
  induction 1 as [|l ls Hl _ IH]; [done |].
  cbn. rewrite length_app, Hl, IH. lia.
Qed.

(** A table whose keys are distinct and among [S] has at most [|S|] keys. *)
Lemma dict_size_bound t (S : list Fingerprint) :
  NoDup (dict_keys t) → dict_keys t ⊆ S → (length t <= length S)%nat.
Proof.
  intros Hnd Hsub.
  rewrite <- (length_fmap fst t).
  apply submseteq_length, NoDup_submseteq; [done |].
  intros x Hx. by apply Hsub.
Qed.

End DictFacts.

(** ** The sampling loop *)

Section LoopFacts.

Variable remote : nat → Z → res (list CYDatum).
Variable num_CYs : Float64.float.
Variables max_dataset_size num_threads compute_chunk_size : Z.

Lemma res_map_ok {A B} (f : A → res B) (P : B → Prop) (l : list A) :
  (∀ x, ∃ y, f x = Ok y ∧ P y) →
  ∃ ys, res_map f l = Ok ys ∧ Forall P ys ∧ length ys = length l.
Proof.
  intros Hf. induction l as [|x l (ys & Hys & HP & Hlen)].
  - by exists [].
  - destruct (Hf x) as (y & Hy & HPy). exists (y :: ys).
    unfold res_map in *. cbn [mapM]. rewrite Hy, Hys. cbn.
    split; [done |]. split; [by constructor | by rewrite Hlen].
Qed.

Lemma ray_get_ok (P : list CYDatum → Prop) first :
  (∀ i, ∃ l, remote i compute_chunk_size = Ok l ∧ P l) →
  ∃ ls, ray_get remote num_threads compute_chunk_size first = Ok ls
        ∧ Forall P ls ∧ length ls = Z.to_nat num_threads.
Proof.
  intros Hr. unfold ray_get.
  destruct (res_map_ok (fun i => remote (first + i) compute_chunk_size) P
              (seq 0 (Z.to_nat num_threads))) as (ls & H1 & H2 & H3);
    [eauto |].
  rewrite length_seq in H3. eauto.
Qed.

(** When no task raises, the body of the loop runs to its end: the
    counter grows by [num_threads * compute_chunk_size] whatever came
    back. *)
Lemma loop_body_ok (P : list CYDatum → Prop) st :
  (∀ i, ∃ l, remote i compute_chunk_size = Ok l ∧ P l) →
  ∃ ls, Forall P ls ∧ length ls = Z.to_nat num_threads
        ∧ loop_body remote num_threads compute_chunk_size st
          = Ok (mkState (merge_round (CY_dict st) ls)
                  (triangulation_ctr st + num_threads * compute_chunk_size)
                  (tasks_run st + Z.to_nat num_threads)).
Proof.
  intros Hr.
  destruct (ray_get_ok P (tasks_run st) Hr) as (ls & Hls & HP & Hlen).
  exists ls. split; [done |]. split; [done |].
  unfold loop_body. by rewrite Hls.
Qed.

(** Whatever the sampler does, a run that ends leaves the counter where
    it was or below the cap plus one round. *)
Lemma loop_ctr_bound fuel st st' :
  sampling_loop remote num_CYs max_dataset_size num_threads
    compute_chunk_size fuel st = Done st' →
  triangulation_ctr st' = triangulation_ctr st
  ∨ triangulation_ctr st'
    < max_dataset_size + num_threads * compute_chunk_size.
Proof.
  revert st. induction fuel as [|fuel IH]; intros st; [done |].
  cbn [sampling_loop].
  destruct (loop_cond _ _ st) eqn:Hc; [| intros [= ->]; by left].
  destruct (loop_body _ _ _ st) as [st1|] eqn:Hb; [| done].
  intros Hrun. apply IH in Hrun.
  unfold loop_cond in Hc. apply andb_true_iff in Hc as [_ Hc%Z.ltb_lt].
  unfold loop_body in Hb.
  destruct (ray_get _ _ _ _) as [ls|]; [| done].
  injection Hb as <-. cbn in Hrun. lia.
Qed.

(** When the cap is a multiple of the round size, the counter stops at
    the cap or before it. *)
Lemma loop_ctr_divisible fuel : ∀ st st',
  0 < num_threads * compute_chunk_size →
  (num_threads * compute_chunk_size | max_dataset_size) →
  (num_threads * compute_chunk_size | triangulation_ctr st) →
  triangulation_ctr st <= max_dataset_size →
  sampling_loop remote num_CYs max_dataset_size num_threads
    compute_chunk_size fuel st = Done st' →
  triangulation_ctr st' <= max_dataset_size.
Proof.
  induction fuel as [|fuel IH]; intros st st' Hpos Hcap Hdiv Hle; [done |].
  cbn [sampling_loop].
  destruct (loop_cond _ _ st) eqn:Hc; [| by intros [= <-]].
  destruct (loop_body _ _ _ st) as [st1|] eqn:Hb; [| done].
  unfold loop_cond in Hc. apply andb_true_iff in Hc as [_ Hc%Z.ltb_lt].
  unfold loop_body in Hb.
  destruct (ray_get _ _ _ _) as [ls|]; [| done].
  injection Hb as <-. apply IH; cbn [triangulation_ctr]; try done.
  - by apply Z.divide_add_r; [| apply Z.divide_refl].
  - destruct Hcap as [c Hc'], Hdiv as [k Hk].
    set (wb := num_threads * compute_chunk_size) in *.
    assert (k < c) by nia. nia.
Qed.

(** The unique-count target is out of reach: every fingerprint the sampler
    can return lies in [S], and [num_CYs] exceeds every count up to
    [|S|]. *)
Section Unreachable.

Variable S : list Fingerprint.
Hypothesis remote_in_S :
  ∀ i, ∃ l, remote i compute_chunk_size = Ok l
            ∧ Forall (fun d => d_fingerprint d ∈ S) l.
Hypothesis target_above :
  ∀ n, (n <= length S)%nat → Float64.int_lt (Z.of_nat n) num_CYs = true.

(** [r] more rounds bring the counter from below the cap to the cap or
    beyond: the loop makes exactly these rounds and stops. *)
Lemma loop_runs_to_cap (r : nat) : ∀ st fuel,
  table_in S (CY_dict st) →
  (r < fuel)%nat →
  0 < num_threads * compute_chunk_size →
  max_dataset_size
    <= triangulation_ctr st + Z.of_nat r * (num_threads * compute_chunk_size) →
  (r ≠ 0%nat →
   triangulation_ctr st
     + (Z.of_nat r - 1) * (num_threads * compute_chunk_size)
   < max_dataset_size) →
  ∃ st', sampling_loop remote num_CYs max_dataset_size num_threads
    compute_chunk_size fuel st = Done st'
         ∧ triangulation_ctr st'
           = triangulation_ctr st
             + Z.of_nat r * (num_threads * compute_chunk_size)
         ∧ table_in S (CY_dict st').
Proof.
  induction r as [|r IH]; intros st fuel Hin Hfuel Hpos Hhi Hlo.
  - destruct fuel as [|fuel]; [lia |]. exists st. cbn [sampling_loop].
    unfold loop_cond.
    replace (triangulation_ctr st <? max_dataset_size) with false
      by (symmetry; apply Z.ltb_ge; lia).
    rewrite andb_false_r. split; [done |]. split; [lia | done].
  - destruct fuel as [|fuel]; [lia |]. cbn [sampling_loop].
    destruct Hin as [Hnd Hsub].
    assert (Hc : loop_cond num_CYs max_dataset_size st = true).
    { unfold loop_cond. apply andb_true_iff. split.
      - apply target_above. by apply dict_size_bound.
      - apply Z.ltb_lt. specialize (Hlo ltac:(done)). nia. }
    rewrite Hc.
    destruct (loop_body_ok _ st remote_in_S) as (ls & Hls & _ & ->).
    destruct (IH (mkState (merge_round (CY_dict st) ls)
                    (triangulation_ctr st + num_threads * compute_chunk_size)
                    (tasks_run st + Z.to_nat num_threads)) fuel)
      as (st' & Hrun & Hctr & Hin'); cbn [CY_dict triangulation_ctr].
    + split; [by apply merge_round_NoDup |].
      by apply merge_round_keys_subseteq.
    + lia.
    + done.
    + lia.
    + intros Hr. specialize (Hlo ltac:(done)). lia.
    + exists st'. split; [done |]. split; [| done].
      cbn [triangulation_ctr] in Hctr. lia.
Qed.

End Unreachable.

End LoopFacts.

(** The keys of the table stay distinct through a run. *)
Lemma loop_NoDup remote num_CYs max_dataset_size num_threads
    compute_chunk_size fuel st st' :
  sampling_loop remote num_CYs max_dataset_size num_threads
    compute_chunk_size fuel st = Done st' →
  NoDup (dict_keys (CY_dict st)) → NoDup (dict_keys (CY_dict st')).
Proof.
  revert st. induction fuel as [|fuel IH]; intros st; [done |].
  cbn [sampling_loop]. destruct (loop_cond _ _ st); [| by intros [= ->]].
  destruct (loop_body _ _ _ st) as [st1|] eqn:Hb; [| done].
  intros Hrun Hnd. apply (IH _ Hrun).
  unfold loop_body in Hb. destruct (ray_get _ _ _ _) as [ls|]; [| done].
  injection Hb as <-. by apply merge_round_NoDup.
Qed.

(** C6. Scenario: target [U = 5], cap [C = 1000], [W = 2] workers, batches
    of [B = 10], and a sampler whose every answer resolves to one of only
    three fingerprints, however many triangulations it returns. The
    target is out of reach, yet the loop ends: any fuel above 50 rounds
    suffices, and it ends with the counter of sampled triangulations equal
    to the cap, 1000, and at most three keys. *)
Theorem scenario_three_fingerprints
    (remote : nat → Z → res (list CYDatum)) (f1 f2 f3 : Fingerprint) :
  (∀ i, ∃ l, remote i 10 = Ok l
             ∧ Forall (fun d => d_fingerprint d ∈ [f1; f2; f3]) l) →
  ∀ fuel, (50 < fuel)%nat →
  ∃ st, sampling_loop remote (Float64.round_int 5) 1000 2 10 fuel
          initial_state = Done st
        ∧ triangulation_ctr st = 1000
        ∧ (length (CY_dict st) <= 3)%nat.
Proof.
  intros Hremote fuel Hfuel.
  destruct (loop_runs_to_cap remote (Float64.round_int 5) 1000 2 10
              [f1; f2; f3] Hremote) with (r := 50%nat) (st := initial_state)
              (fuel := fuel)
    as (st & Hrun & Hctr & Hnd & Hsub); cbn; try lia.
  - intros [|[|[|[|n]]]] Hn; cbn in Hn; try lia; reflexivity.
  - split; [constructor | intros x Hx; by apply elem_of_nil in Hx].
  - exists st. split; [done |]. split; [cbn in Hctr; lia |].
    by apply (dict_size_bound _ [f1; f2; f3]).
Qed.

Lemma scenario_three_fingerprints_witness :
  (∀ i, ∃ l, mock_three i 10 = Ok l
             ∧ Forall (fun d => d_fingerprint d
                                ∈ [[[0;0;0;0]]; [[0;0;0;1]]; [[0;0;0;2]]]) l)
  ∧ (50 < 51)%nat
  ∧ ∃ st, sampling_loop mock_three (Float64.round_int 5) 1000 2 10 51
            initial_state = Done st
          ∧ triangulation_ctr st = 1000
          ∧ (length (CY_dict st) <= 3)%nat.
Proof.
  assert (H : ∀ i, ∃ l, mock_three i 10 = Ok l
             ∧ Forall (fun d => d_fingerprint d
                                ∈ [[[0;0;0;0]]; [[0;0;0;1]]; [[0;0;0;2]]]) l).
  { intros i. eexists. split; [reflexivity |].
    repeat (constructor; [cbn; set_solver |]). constructor. }
  assert (H51 : (50 < 51)%nat) by lia.
  split; [exact H | split; [exact H51 |]].
  exact (scenario_three_fingerprints mock_three _ _ _ H 51%nat H51).
Defined.

(** C2 (the code departs from the claim). With the cap at 1000 and 16
    workers sampling 100 triangulations each, the first round already
    brings [triangulation_ctr] to 1600: whatever the tasks return, the loop
    ends with the counter above the cap. The guard of the [while] is only
    read between rounds, so the cap is overshot whenever it is not a
    multiple of [num_threads * compute_chunk_size]. When every task returns
    the 100 triangulations it was asked for, the dataset holds 1600
    entries, above the maximum of 1000 too. *)
Theorem cap_overshoot (remote : nat → Z → res (list CYDatum)) :
  (∀ i, ∃ l, remote i 100 = Ok l) →
  ∀ fuel, (1 < fuel)%nat →
  ∃ st, sampling_loop remote (Float64.round_int (10 ^ 6)) 1000 16 100 fuel
          initial_state = Done st
        ∧ triangulation_ctr st = 1600
        ∧ ¬ triangulation_ctr st <= 1000
        ∧ ((∀ i l, remote i 100 = Ok l → length l = 100%nat) →
           length (flatten (dict_values (CY_dict st))) = 1600%nat).
Proof.
  intros Hremote [|[|fuel]] Hfuel; try lia.
  destruct (loop_body_ok remote 16 100
              (fun l => ∃ i, remote i 100 = Ok l) initial_state)
    as (ls & Hls & Hlen & Hb).
  { intros i. destruct (Hremote i) as [l Hl]. eauto. }
  eexists. cbn [sampling_loop].
  replace (loop_cond _ 1000 initial_state) with true by reflexivity.
  rewrite Hb. unfold loop_cond at 1. cbn [triangulation_ctr initial_state].
  replace (0 + 16 * 100 <? 1000) with false by reflexivity.
  rewrite andb_false_r.
  split; [reflexivity |]. cbn [triangulation_ctr CY_dict].
  split; [lia |]. split; [lia |].
  intros Hfull. rewrite merge_round_entries. cbn.
  rewrite length_fmap, (length_concat_uniform 100), Hlen; [done |].
  eapply Forall_impl; [exact Hls |]. intros l [i Hi]. by apply (Hfull i).
Qed.

Lemma cap_overshoot_witness :
  (∀ i, ∃ l, mock_full i 100 = Ok l)
  ∧ (1 < 2)%nat
  ∧ ∃ st, sampling_loop mock_full (Float64.round_int (10 ^ 6)) 1000 16 100 2
            initial_state = Done st
          ∧ triangulation_ctr st = 1600
          ∧ ¬ triangulation_ctr st <= 1000
          ∧ ((∀ i l, mock_full i 100 = Ok l → length l = 100%nat) →
             length (flatten (dict_values (CY_dict st))) = 1600%nat).
Proof.
  assert (H : ∀ i, ∃ l, mock_full i 100 = Ok l)
    by (intros i; eexists; reflexivity).
  assert (H2 : (1 < 2)%nat) by lia.
  split; [exact H | split; [exact H2 |]].
  exact (cap_overshoot mock_full H 2%nat H2).
Defined.

(** ** Binary64 arithmetic

    What the split needs of [SpecFloat]: how one rounding moves a product
    that stays below [2^53], seen on mantissas and exponents. *)

Section FloatFacts.


Lemma digits2_pos_bounds p :
  2 ^ (Z.pos (digits2_pos p) - 1) <= Z.pos p < 2 ^ Z.pos (digits2_pos p).
Proof.
  induction p as [p IH|p IH|]; cbn [digits2_pos]; [| | by compute].
  - rewrite Pos2Z.inj_succ.
    replace (Z.succ (Z.pos (digits2_pos p)) - 1) with
      (Z.succ (Z.pos (digits2_pos p) - 1)) by lia.
    rewrite !Z.pow_succ_r by lia. lia.
  - rewrite Pos2Z.inj_succ.
    replace (Z.succ (Z.pos (digits2_pos p)) - 1) with
      (Z.succ (Z.pos (digits2_pos p) - 1)) by lia.
    rewrite !Z.pow_succ_r by lia. lia.
Qed.

(** A nonnegative integer below [2^k] has at most [k] binary digits. *)
Lemma Zdigits2_le m k : 0 <= m < 2 ^ k → 0 <= k → Zdigits2 m <= k.
Proof.
  intros [Hm Hlt] Hk. destruct m as [|p|p]; [done | | lia].
  cbn [Zdigits2]. pose proof (digits2_pos_bounds p) as [Hlo _].
  destruct (Z.le_gt_cases (Z.pos (digits2_pos p)) k) as [|Hgt]; [done |].
  assert (2 ^ k <= 2 ^ (Z.pos (digits2_pos p) - 1))
    by (apply Z.pow_le_mono_r; lia).
  lia.
Qed.

Lemma shr_1_spec mrs :
  0 <= shr_m mrs →
  ∃ b : bool,
    shr_m mrs = 2 * shr_m (shr_1 mrs) + (if b then 1 else 0)
    ∧ 0 <= shr_m (shr_1 mrs)
    ∧ inexact (shr_1 mrs) = b || inexact mrs.
Proof.
  destruct mrs as [m r s]. cbn [shr_m]. intros Hm. unfold inexact.
  destruct m as [|[p|p|]|p]; cbn; try lia.
  - exists false. by rewrite orb_false_l.
  - exists true. split; [lia |]. split; [lia | done].
  - exists false. split; [lia |]. split; [lia | done].
  - by exists true.
Qed.

Lemma iter_shr_1_spec p : ∀ mrs,
  0 <= shr_m mrs →
  ∃ rem,
    shr_m mrs = shr_m (SpecFloat.iter_pos shr_1 p mrs) * 2 ^ Z.pos p + rem
    ∧ 0 <= rem < 2 ^ Z.pos p
    ∧ 0 <= shr_m (SpecFloat.iter_pos shr_1 p mrs)
    ∧ (inexact (SpecFloat.iter_pos shr_1 p mrs) = false
       ↔ inexact mrs = false ∧ rem = 0).
Proof.
  assert (H1 : ∀ mrs, 0 <= shr_m mrs →
    ∃ rem, shr_m mrs = shr_m (shr_1 mrs) * 2 ^ 1 + rem
           ∧ 0 <= rem < 2 ^ 1 ∧ 0 <= shr_m (shr_1 mrs)
           ∧ (inexact (shr_1 mrs) = false ↔ inexact mrs = false ∧ rem = 0)).
  { intros mrs Hm. destruct (shr_1_spec mrs Hm) as (b & Hb & Hpos & Hin).
    exists (if b then 1 else 0). rewrite Hin.
    destruct b; (split; [lia |]); (split; [lia |]); (split; [done |]);
      cbn; split; try done; intros [? ?]; try done. }
  assert (Hcomp : ∀ (f g : shr_record → shr_record) a b,
    0 < a → 0 < b →
    (∀ mrs, 0 <= shr_m mrs →
       ∃ rem, shr_m mrs = shr_m (f mrs) * 2 ^ a + rem
              ∧ 0 <= rem < 2 ^ a ∧ 0 <= shr_m (f mrs)
              ∧ (inexact (f mrs) = false ↔ inexact mrs = false ∧ rem = 0)) →
    (∀ mrs, 0 <= shr_m mrs →
       ∃ rem, shr_m mrs = shr_m (g mrs) * 2 ^ b + rem
              ∧ 0 <= rem < 2 ^ b ∧ 0 <= shr_m (g mrs)
              ∧ (inexact (g mrs) = false ↔ inexact mrs = false ∧ rem = 0)) →
    (∀ mrs, 0 <= shr_m mrs →
       ∃ rem, shr_m mrs = shr_m (g (f mrs)) * 2 ^ (a + b) + rem
              ∧ 0 <= rem < 2 ^ (a + b) ∧ 0 <= shr_m (g (f mrs))
              ∧ (inexact (g (f mrs)) = false
                 ↔ inexact mrs = false ∧ rem = 0))).
  { intros f g a b Ha Hb Hf Hg mrs Hm.
    destruct (Hf mrs Hm) as (r1 & E1 & B1 & P1 & I1).
    destruct (Hg (f mrs) P1) as (r2 & E2 & B2 & P2 & I2).
    exists (r2 * 2 ^ a + r1). rewrite Z.pow_add_r by lia.
    assert (0 < 2 ^ a) by (apply Z.pow_pos_nonneg; lia).
    assert (0 < 2 ^ b) by (apply Z.pow_pos_nonneg; lia).
    split; [rewrite E1, E2; ring |]. split; [nia |]. split; [done |].
    rewrite I2, I1. split.
    - intros [[? ->] ->]. split; [done | lia].
    - intros [? Hz]. assert (r2 = 0) by nia. assert (r1 = 0) by nia. done. }
  induction p as [p IH|p IH|]; intros mrs Hm; cbn [SpecFloat.iter_pos];
    try set (shift := SpecFloat.iter_pos shr_1 p) in *.
  - replace (Z.pos p~1) with (1 + (Z.pos p + Z.pos p)) by lia.
    apply (Hcomp shr_1 (fun x => shift (shift x)) 1 (Z.pos p + Z.pos p));
      try lia; try done.
    apply (Hcomp shift shift); try lia; done.
  - replace (Z.pos p~0) with (Z.pos p + Z.pos p) by lia.
    apply (Hcomp shift shift); try lia; done.
  - by apply H1.
Qed.


Lemma shr_fexp_exact_spec m e :
  0 <= m →
  ∃ n rem,
    0 <= n
    ∧ (shr_fexp 53 1024 m e loc_Exact).2 = e + n
    ∧ e + n = Z.max e (fexp 53 1024 (Zdigits2 m + e))
    ∧ m = shr_m (shr_fexp 53 1024 m e loc_Exact).1 * 2 ^ n + rem
    ∧ 0 <= rem < 2 ^ n
    ∧ 0 <= shr_m (shr_fexp 53 1024 m e loc_Exact).1
    ∧ (inexact (shr_fexp 53 1024 m e loc_Exact).1 = false ↔ rem = 0).
Proof.
  intros Hm. unfold shr_fexp, shr. cbn [shr_record_of_loc].
  destruct (fexp 53 1024 (Zdigits2 m + e) - e) as [|p|p] eqn:Hn.
  - exists 0, 0. cbn. repeat split; try lia.
  - destruct (iter_shr_1_spec p (Build_shr_record m false false) Hm)
      as (rem & E & B & P & I).
    exists (Z.pos p), rem. cbn [fst snd shr_m] in *.
    repeat split; try lia; try done.
    + by intros [_ ?]%I.
    + intros ->. by apply I.
  - exists 0, 0. cbn. repeat split; try lia.
Qed.

Lemma round_nearest_even_bounds mrs :
  shr_m mrs <= round_nearest_even (shr_m mrs) (loc_of_shr_record mrs)
            <= shr_m mrs + 1
  ∧ (inexact mrs = false →
     round_nearest_even (shr_m mrs) (loc_of_shr_record mrs) = shr_m mrs).
Proof.
  destruct mrs as [m [|] [|]]; cbn; try destruct (Z.even m); split; try lia;
    done.
Qed.

(** Rounding a positive [m * 2^e], [e <= 0], that does not exceed the
    integer [2^53 - 1]: the result is [m2 * 2^e2] with [e2 <= 0], and every
    integer below (above) the exact number stays below (above) the
    rounded one. *)
Lemma binary_round_aux_core s m e :
  0 < m → e <= 0 → m <= (2 ^ 53 - 1) * 2 ^ (- e) →
  ∃ m2 e2,
    e2 <= 0 ∧ 0 <= m2
    ∧ binary_round_aux 53 1024 s m e loc_Exact
      = match m2 with
        | Z0 => S754_zero s
        | Z.pos p => S754_finite s p e2
        | Z.neg _ => S754_nan
        end
    ∧ (∀ L, L * 2 ^ (- e) <= m → L * 2 ^ (- e2) <= m2)
    ∧ (∀ H, m <= H * 2 ^ (- e) → m2 <= H * 2 ^ (- e2)).
Proof.
  intros Hm He Hle. unfold binary_round_aux.
  destruct (shr_fexp_exact_spec m e) as (n1 & r1 & Hn1 & He1 & Hmax1 & E1 & B1
                                         & P1 & I1); [lia |].
  destruct (shr_fexp 53 1024 m e loc_Exact) as [mrs1 e1] eqn:Hs1.
  cbn [fst snd] in *.
  destruct (round_nearest_even_bounds mrs1) as [[Hq1 Hq2] Hq3].
  set (q := shr_m mrs1) in *.
  set (q' := round_nearest_even q (loc_of_shr_record mrs1)) in *.
  assert (Hpow : ∀ a b, 0 <= a → 0 <= b → 2 ^ (a + b) = 2 ^ a * 2 ^ b)
    by (intros; by apply Z.pow_add_r).
  assert (Hpos : ∀ a, 0 <= a → 0 < 2 ^ a)
    by (intros; apply Z.pow_pos_nonneg; lia).
  (* the first exponent is not positive *)
  assert (Hd : Zdigits2 m <= 53 - e).
  { apply Zdigits2_le; [| lia]. split; [lia |].
    replace (53 - e) with (53 + - e) by lia. rewrite Hpow by lia.
    pose proof (Hpos (- e)). nia. }
  assert (He1' : e1 <= 0) by (unfold fexp, emin in Hmax1; lia).
  assert (Hsplit1 : 2 ^ (- e) = 2 ^ (- e1) * 2 ^ n1).
  { rewrite <- Hpow by lia. f_equal. lia. }
  pose proof (Hpos n1 Hn1) as Hp1. pose proof (Hpos (- e1)) as Hpe1.
  assert (HL1 : ∀ L, L * 2 ^ (- e) <= m → L * 2 ^ (- e1) <= q').
  { intros L HL. rewrite Hsplit1 in HL. nia. }
  assert (HH1 : ∀ H, m <= H * 2 ^ (- e) → q' <= H * 2 ^ (- e1)).
  { intros H HH. rewrite Hsplit1 in HH.
    destruct (decide (r1 = 0)) as [->|Hr1].
    - rewrite Hq3 by (by apply I1). nia.
    - nia. }
  (* second shift *)
  assert (Hq'0 : 0 <= q') by lia.
  destruct (shr_fexp_exact_spec q' e1 Hq'0)
    as (n2 & r2 & Hn2 & He2 & Hmax2 & E2 & B2 & P2 & I2).
  destruct (shr_fexp 53 1024 q' e1 loc_Exact) as [mrs2 e2] eqn:Hs2.
  cbn [fst snd] in *.
  set (m2 := shr_m mrs2) in *.
  assert (Hq'le : q' <= (2 ^ 53 - 1) * 2 ^ (- e1)) by (by apply HH1).
  assert (Hd2 : Zdigits2 q' <= 53 - e1).
  { apply Zdigits2_le; [| lia]. split; [lia |].
    replace (53 - e1) with (53 + - e1) by lia. rewrite Hpow by lia. nia. }
  assert (He2' : e2 <= 0) by (unfold fexp, emin in Hmax2; lia).
  assert (Hsplit2 : 2 ^ (- e1) = 2 ^ (- e2) * 2 ^ n2).
  { rewrite <- Hpow by lia. f_equal. lia. }
  pose proof (Hpos n2 Hn2) as Hp2. pose proof (Hpos (- e2)) as Hpe2.
  exists m2, e2. split; [done |]. split; [done |]. split.
  - destruct m2 as [|p|p]; [done | | lia].
    replace (e2 <=? 1024 - 53) with true by (symmetry; apply Z.leb_le; lia).
    done.
  - split.
    + intros L HL%HL1. rewrite Hsplit2 in HL. nia.
    + intros H HH%HH1. rewrite Hsplit2 in HH. nia.
Qed.


Lemma shl_align_spec mx ex ex' :
  (shl_align mx ex ex').2 <= ex
  ∧ Z.pos (shl_align mx ex ex').1
    = Z.pos mx * 2 ^ (ex - (shl_align mx ex ex').2).
Proof.
  unfold shl_align. destruct (ex' - ex) as [|d|d] eqn:Hd; cbn [fst snd].
  - rewrite Z.sub_diag. lia.
  - rewrite Z.sub_diag. lia.
  - split; [lia |]. replace (ex - ex') with (Z.pos d) by lia.
    clear Hd. revert mx.
    induction d as [|d IH] using Pos.peano_ind; intros mx.
    + cbn. lia.
    + rewrite Pos.iter_succ, Pos2Z.inj_succ, Z.pow_succ_r by lia.
      rewrite Pos2Z.inj_xO, IH. lia.
Qed.

(** An integer [0 < K < 2^53] converts exactly. *)
Lemma round_int_exact K :
  0 < K < 2 ^ 53 →
  ∃ mK eK, Float64.round_int K = S754_finite false mK eK
           ∧ eK <= 0 ∧ Z.pos mK = K * 2 ^ (- eK).
Proof.
  intros [HK0 HK]. destruct K as [|p|p]; try lia.
  unfold Float64.round_int, binary_normalize, binary_round.
  unfold Float64.prec, Float64.emax.
  pose proof (shl_align_spec p 0 (fexp 53 1024 (Z.pos (digits2_pos p) + 0)))
    as [Hez Hmz].
  destruct (shl_align _ _ _) as [mz ez]. cbn [fst snd] in *.
  rewrite Z.sub_0_l in Hmz.
  assert (0 < 2 ^ (- ez)) by (apply Z.pow_pos_nonneg; lia).
  destruct (binary_round_aux_core false (Z.pos mz) ez)
    as (m2 & e2 & He2 & Hm2 & -> & HL & HH); [lia | lia | nia |].
  specialize (HL (Z.pos p) ltac:(lia)). specialize (HH (Z.pos p) ltac:(lia)).
  assert (0 < 2 ^ (- e2)) by (apply Z.pow_pos_nonneg; lia).
  destruct m2 as [|q|q]; [nia | | lia].
  exists q, e2. split; [done |]. split; [done | lia].
Qed.

(** [int] of a nonnegative float with a nonpositive exponent. *)
Lemma to_int_finite m e :
  e <= 0 → Float64.to_int (S754_finite false m e) = Ok (Z.pos m / 2 ^ (- e)).
Proof.
  intros He. cbn [Float64.to_int cond_Zopp]. f_equal.
  rewrite <- (Z.opp_involutive e) at 1.
  rewrite <- Z.shiftr_opp_r, Z.opp_involutive. apply Z.shiftr_div_pow2. lia.
Qed.

(** The order on valid floats, read on mantissa and exponent: a float in
    [[0, 1]] is a zero or [m * 2^e] with [m <= 2^(-e)]. *)
Lemma unit_interval_inv r :
  valid_binary Float64.prec Float64.emax r = true →
  Float64.leb Float64.zero r = true →
  Float64.leb r Float64.one = true →
  (∃ s, r = S754_zero s)
  ∨ (∃ m e, r = S754_finite false m e ∧ e <= 0 ∧ Z.pos m <= 2 ^ (- e)).
Proof.
  intros Hv H0 H1.
  assert (Hone : Float64.one = S754_finite false 4503599627370496 (-52))
    by (by vm_compute).
  rewrite Hone in H1. unfold Float64.leb, SFleb, Float64.zero in H0, H1.
  destruct r as [s|s| |s m e]; cbn [SFcompare] in H0, H1.
  - left. by exists s.
  - by destruct s.
  - done.
  - destruct s; [done |]. right. exists m, e. split; [done |]. clear H0.
    cbn [valid_binary] in Hv. unfold bounded in Hv.
    apply andb_true_iff in Hv as [Hc _].
    unfold canonical_mantissa, fexp, emin, Float64.prec, Float64.emax in Hc.
    apply Z.eqb_eq in Hc.
    pose proof (digits2_pos_bounds m) as [_ Hm].
    destruct (Z.compare_spec e (-52)) as [->|Hlt|Hgt]; [| | done].
    + split; [lia |]. change (2 ^ (- (-52))) with 4503599627370496.
      rewrite Pos.compare_cont_spec in H1. cbn [Pos.switch_Eq] in H1.
      destruct (Pos.compare_spec m 4503599627370496) as [Heq|Hlt|Hgt].
      * subst m. reflexivity.
      * apply Z.lt_le_incl. exact Hlt.
      * done.
    + split; [lia |].
      assert (2 ^ Z.pos (digits2_pos m) <= 2 ^ (- e))
        by (apply Z.pow_le_mono_r; lia).
      clear -Hm H. lia.
Qed.


Lemma value_finite m e :
  e <= 0 →
  (Float64.value (S754_finite false m e)
   == inject_Z (Z.pos m) / inject_Z (2 ^ (- e)))%Q.
Proof.
  intros He. cbn [Float64.value cond_Zopp]. unfold Qdiv.
  apply Qmult_comp; [reflexivity |].
  rewrite <- (Z.opp_involutive e) at 1.
  rewrite Qpower_opp. apply Qinv_comp.
  symmetry. apply (Zpower_Qpower 2). lia.
Qed.

Lemma floor_value_finite m e :
  e <= 0 →
  Qfloor (Float64.value (S754_finite false m e)) = Z.pos m / 2 ^ (- e).
Proof.
  intros He. rewrite (Qfloor_comp _ _ (value_finite m e He)).
  symmetry. apply Zdiv_Qdiv.
Qed.

Lemma floor_exact_finite K m e :
  e <= 0 →
  floor_of_exact_product K (S754_finite false m e)
  = (K * Z.pos m) / 2 ^ (- e).
Proof.
  intros He. unfold floor_of_exact_product.
  rewrite Zdiv_Qdiv. apply Qfloor_comp.
  rewrite (value_finite m e He), inject_Z_mult. unfold Qdiv. ring.
Qed.

Lemma floor_exact_zero K s :
  floor_of_exact_product K (S754_zero s) = 0.
Proof.
  unfold floor_of_exact_product. cbn [Float64.value].
  rewrite (Qfloor_comp _ 0%Q); [done | ring].
Qed.

(** The split index for a ratio in [[0, 1]] and fewer than [2^53]
    manifolds: the call returns; the index is within the list; it is the
    floor of the binary64 product; and it is the floor of the exact
    product or one more. *)
Lemma train_dataset_size_unit (len : nat) (r : Float64.float) :
  Z.of_nat len < 2 ^ 53 →
  valid_binary Float64.prec Float64.emax r = true →
  Float64.leb Float64.zero r = true →
  Float64.leb r Float64.one = true →
  ∃ n, train_dataset_size len r = Ok n
       ∧ 0 <= n <= Z.of_nat len
       ∧ floor_of_product (Z.of_nat len) r = Ok n
       ∧ floor_of_exact_product (Z.of_nat len) r <= n
         <= floor_of_exact_product (Z.of_nat len) r + 1.
Proof.
  intros Hlen Hv H0 H1.
  unfold train_dataset_size, floor_of_product, Float64.int_mul, Float64.of_int.
  destruct (unit_interval_inv r Hv H0 H1)
    as [[s ->]|(mr & er & -> & Her & Hmr)].
  - (* the ratio is a zero *)
    rewrite floor_exact_zero.
    destruct (decide (Z.of_nat len = 0)) as [->|Hnz].
    + exists 0. cbn. repeat split; first [done | lia].
    + destruct (round_int_exact (Z.of_nat len)) as (mK & eK & -> & _);
        [lia |].
      exists 0. cbn. repeat split; first [done | lia].
  - destruct (decide (Z.of_nat len = 0)) as [Hz|Hnz].
    + rewrite floor_exact_finite, Hz by done. cbn.
      exists 0. repeat split; first [done | lia].
    + destruct (round_int_exact (Z.of_nat len)) as (mK & eK & -> & HeK & HmK);
        [lia |].
      cbn [mbind res_bind Float64.mul SFmul xorb].
      unfold Float64.prec, Float64.emax.
      assert (HpK : 0 < 2 ^ (- eK)) by (apply Z.pow_pos_nonneg; lia).
      assert (Hpr : 0 < 2 ^ (- er)) by (apply Z.pow_pos_nonneg; lia).
      assert (Hsplit : 2 ^ (- (eK + er)) = 2 ^ (- eK) * 2 ^ (- er)).
      { rewrite <- Z.pow_add_r by lia. f_equal. lia. }
      destruct (binary_round_aux_core false (Z.pos (mK * mr)) (eK + er))
        as (m2 & e2 & He2 & Hm2 & -> & HL & HH); [lia | lia | |].
      { rewrite Hsplit, Pos2Z.inj_mul. nia. }
      assert (Hp2 : 0 < 2 ^ (- e2)) by (apply Z.pow_pos_nonneg; lia).
      rewrite floor_exact_finite by done.
      set (F := Z.of_nat len * Z.pos mr / 2 ^ (- er)).
      assert (HF : F * 2 ^ (- er) <= Z.of_nat len * Z.pos mr
                   < (F + 1) * 2 ^ (- er)).
      { pose proof (Z.div_mod (Z.of_nat len * Z.pos mr) (2 ^ (- er))
                      ltac:(lia)).
        pose proof (Z.mod_pos_bound (Z.of_nat len * Z.pos mr) (2 ^ (- er))
                      ltac:(lia)).
        fold F in H. nia. }
      assert (Hub : m2 <= Z.of_nat len * 2 ^ (- e2)).
      { apply HH. rewrite Hsplit, Pos2Z.inj_mul. nia. }
      assert (Hlo : F * 2 ^ (- e2) <= m2).
      { apply HL. rewrite Hsplit, Pos2Z.inj_mul. nia. }
      assert (Hhi : m2 <= (F + 1) * 2 ^ (- e2)).
      { apply HH. rewrite Hsplit, Pos2Z.inj_mul. nia. }
      exists (m2 / 2 ^ (- e2)).
      assert (Hn1 : m2 / 2 ^ (- e2) <= Z.of_nat len)
        by (apply Z.div_le_upper_bound; lia).
      assert (Hn2 : F <= m2 / 2 ^ (- e2))
        by (apply Z.div_le_lower_bound; lia).
      assert (Hn3 : m2 / 2 ^ (- e2) <= F + 1)
        by (apply Z.div_le_upper_bound; lia).
      assert (Hn0 : 0 <= m2 / 2 ^ (- e2)) by (apply Z.div_pos; lia).
      destruct m2 as [|p|p]; [| | lia].
      * cbn. rewrite Z.div_0_l by lia. repeat split; try lia.
        all: rewrite Z.div_0_l in * by lia; lia.
      * rewrite to_int_finite by done. cbn [Float64.is_finite].
        rewrite floor_value_finite by done. repeat split; lia.
Qed.

End FloatFacts.

(** ** Shuffling *)

Section ShuffleFacts.

Context {A : Type}.
Implicit Types (x : list A) (randbelow : nat → nat).

Lemma swap_Permutation i j x : swap i j x ≡ₚ x.
Proof.
  unfold swap. destruct (x !! i) as [a|] eqn:Hi; [| done].
  destruct (x !! j) as [b|] eqn:Hj; [| done].
  by apply Permutation_insert_swap.
Qed.

Lemma shuffle_from_Permutation randbelow i x :
  shuffle_from randbelow i x ≡ₚ x.
Proof.
  revert x. induction i as [|i IH]; intros x; [done |].
  cbn [shuffle_from]. by rewrite IH, swap_Permutation.
Qed.

(** Whatever the generator answers, [random.shuffle] leaves a permutation
    of the list. *)
Lemma random_shuffle_Permutation randbelow x : random_shuffle randbelow x ≡ₚ x.
Proof. apply shuffle_from_Permutation. Qed.

End ShuffleFacts.

(** The shuffle moves elements without looking at them. *)
Lemma swap_fmap {A B} (f : A → B) i j (x : list A) :
  swap i j (f <$> x) = f <$> swap i j x.
Proof.
  unfold swap. rewrite !list_lookup_fmap.
  destruct (x !! i) as [a|]; [| done]. destruct (x !! j) as [b|]; [| done].
  cbn. by rewrite !list_fmap_insert.
Qed.

Lemma random_shuffle_fmap {A B} (f : A → B) randbelow (x : list A) :
  random_shuffle randbelow (f <$> x) = f <$> random_shuffle randbelow x.
Proof.
  unfold random_shuffle. rewrite length_fmap.
  generalize (length x - 1)%nat as i. intros i. revert x.
  induction i as [|i IH]; intros x; [done |].
  cbn [shuffle_from]. by rewrite swap_fmap, IH.
Qed.

(** ** Split and flatten *)

Lemma slice_to_from {A} n (l : list A) : slice_to n l ++ slice_from n l = l.
Proof. apply take_drop. Qed.

Section SplitFacts.

Context {A : Type}.
Implicit Types (l : list A) (dataset : list (list A)).

Lemma slice_index_le len n : (slice_index len n <= len)%nat.
Proof. unfold slice_index. destruct (Z.ltb_spec n 0); lia. Qed.

Lemma slice_index_in_range len n :
  0 <= n <= Z.of_nat len → slice_index len n = Z.to_nat n.
Proof.
  intros Hn. unfold slice_index.
  replace (n <? 0) with false by (symmetry; apply Z.ltb_ge; lia).
  by rewrite Z.min_l by lia.
Qed.



Lemma split_dataset_inv dataset split train test :
  split_dataset dataset split = Ok (train, test) →
  ∃ size, train_dataset_size (length dataset) split = Ok size
          ∧ train = flatten (slice_to size dataset)
          ∧ test = flatten (slice_from size dataset).
Proof.
  unfold split_dataset.
  destruct (train_dataset_size _ _) as [size|]; [| done].
  intros [= <- <-]. eauto.
Qed.


End SplitFacts.

Lemma slice_to_fmap {A B} (f : A → B) n (l : list A) :
  slice_to n (f <$> l) = f <$> slice_to n l.
Proof. unfold slice_to. by rewrite length_fmap, fmap_take. Qed.

Lemma slice_from_fmap {A B} (f : A → B) n (l : list A) :
  slice_from n (f <$> l) = f <$> slice_from n l.
Proof. unfold slice_from. by rewrite length_fmap, fmap_drop. Qed.

(** The split of the values of a list of items, seen on the items: the
    train entries are those of a prefix of the items, the test entries
    those of the remaining suffix, and no key is on both sides. *)
Lemma split_items (items : DedupTable) split train test :
  NoDup (dict_keys items) →
  split_dataset (dict_values items) split = Ok (train, test) →
  ∃ train_items test_items : DedupTable,
    items = train_items ++ test_items
    ∧ train = flatten (dict_values train_items)
    ∧ test = flatten (dict_values test_items)
    ∧ list_to_set (dict_keys train_items)
      ## (list_to_set (dict_keys test_items) : gset Fingerprint).
Proof.
  intros Hnd (size & _ & -> & ->)%split_dataset_inv.
  exists (slice_to size items), (slice_from size items).
  unfold dict_values. rewrite slice_to_fmap, slice_from_fmap.
  split; [by rewrite slice_to_from |]. split; [done |]. split; [done |].
  rewrite <- (slice_to_from size items) in Hnd.
  unfold dict_keys in *. rewrite fmap_app in Hnd.
  apply NoDup_app in Hnd as (_ & Hdisj & _).
  intros k Hk1%elem_of_list_to_set Hk2%elem_of_list_to_set.
  by apply (Hdisj k).
Qed.

(** For a ratio in [[0, 1]] the split returns. *)
Lemma split_pipeline_returns (randbelow : nat → nat) (t : DedupTable)
    (train_test_split : Float64.float) :
  Z.of_nat (length t) < 2 ^ 53 →
  valid_binary Float64.prec Float64.emax train_test_split = true →
  Float64.leb Float64.zero train_test_split = true →
  Float64.leb train_test_split Float64.one = true →
  ∃ train_dataset test_dataset,
    split_pipeline randbelow t train_test_split
    = Ok (train_dataset, test_dataset).
Proof.
  intros Hlen Hv H0 H1. unfold split_pipeline, split_dataset.
  assert (Hlen' : length (random_shuffle randbelow (dict_values t)) = length t).
  { rewrite random_shuffle_Permutation. apply length_fmap. }
  rewrite Hlen'.
  destruct (train_dataset_size_unit (length t) train_test_split Hlen Hv H0 H1)
    as (n & -> & _).
  cbn. eauto.
Qed.

(** C1. No leakage. For every run (whatever the sampler returned until
    the loop stopped, and whatever the generator answered during the
    shuffle), follow the keys through the shuffle: the items of the table,
    in the order the shuffle puts their values, split into a prefix whose
    entries make up the train dataset and the remaining suffix whose
    entries make up the test dataset. Every manifold's whole sequence of
    entries is on one side, and the set of fingerprints in train is
    disjoint from the set in test. For a split ratio in [[0, 1]] the split
    does return. *)
Theorem no_leakage (remote : nat → Z → res (list CYDatum))
    (num_CYs : Float64.float)
    (max_dataset_size num_threads compute_chunk_size : Z)
    (fuel : nat) (st : loop_state) (randbelow : nat → nat)
    (train_test_split : Float64.float) :
  sampling_loop remote num_CYs max_dataset_size num_threads
    compute_chunk_size fuel initial_state = Done st →
  (∀ train_dataset test_dataset : list DatasetEntry,
     split_pipeline randbelow (CY_dict st) train_test_split
       = Ok (train_dataset, test_dataset) →
     ∃ train_items test_items : DedupTable,
       random_shuffle randbelow (CY_dict st) = train_items ++ test_items
       ∧ dict_values (train_items ++ test_items)
         = random_shuffle randbelow (dict_values (CY_dict st))
       ∧ train_dataset = flatten (dict_values train_items)
       ∧ test_dataset = flatten (dict_values test_items)
       ∧ list_to_set (dict_keys train_items)
         ## (list_to_set (dict_keys test_items) : gset Fingerprint))
  ∧ (Z.of_nat (length (CY_dict st)) < 2 ^ 53 →
     valid_binary Float64.prec Float64.emax train_test_split = true →
     Float64.leb Float64.zero train_test_split = true →
     Float64.leb train_test_split Float64.one = true →
     ∃ train_dataset test_dataset,
       split_pipeline randbelow (CY_dict st) train_test_split
       = Ok (train_dataset, test_dataset)).
Proof.
  intros Hrun. split; [| apply split_pipeline_returns].
  intros train_dataset test_dataset Hsplit.
  unfold split_pipeline, dict_values in Hsplit.
  rewrite random_shuffle_fmap in Hsplit.
  apply split_items in Hsplit as (tr & te & Happ & ? & ? & ?).
  - exists tr, te. split; [done |]. split; [| done].
    unfold dict_values. by rewrite <- Happ, random_shuffle_fmap.
  - unfold dict_keys. rewrite random_shuffle_Permutation.
    apply (loop_NoDup _ _ _ _ _ _ _ _ Hrun). constructor.
Qed.


Lemma no_leakage_witness :
  sampling_loop mock_three (Float64.round_int 3) 100 1 10 10 initial_state
    = Done demo_state
  ∧ split_pipeline (fun _ => 0%nat) (CY_dict demo_state) (Float64.literal 8 10)
    = Ok (demo_split.1, demo_split.2)
  ∧ ∃ train_items test_items : DedupTable,
      random_shuffle (fun _ => 0%nat) (CY_dict demo_state)
        = train_items ++ test_items
      ∧ dict_values (train_items ++ test_items)
        = random_shuffle (fun _ => 0%nat) (dict_values (CY_dict demo_state))
      ∧ demo_split.1 = flatten (dict_values train_items)
      ∧ demo_split.2 = flatten (dict_values test_items)
      ∧ list_to_set (dict_keys train_items)
        ## (list_to_set (dict_keys test_items) : gset Fingerprint).
Proof.
  assert (Hrun : sampling_loop mock_three (Float64.round_int 3) 100 1 10 10
                   initial_state = Done demo_state) by (vm_compute; reflexivity).
  assert (Hsplit : split_pipeline (fun _ => 0%nat) (CY_dict demo_state)
                     (Float64.literal 8 10)
                   = Ok (demo_split.1, demo_split.2))
    by (vm_compute; reflexivity).
  split; [exact Hrun | split; [exact Hsplit |]].
  exact (proj1 (no_leakage _ _ _ _ _ _ _ _ _ Hrun) _ _ Hsplit).
Defined.


(** The product rounds: with ten manifolds and the ratio written [0.7],
    the binary64 product is 7.0 although the exact product of 10 and the
    binary64 number [0.7] denotes is below 7. The split index follows the
    former. *)
Lemma split_index_follows_binary64 :
  train_dataset_size 10 (Float64.literal 7 10) = Ok 7
  ∧ floor_of_product 10 (Float64.literal 7 10) = Ok 7
  ∧ floor_of_exact_product 10 (Float64.literal 7 10) = 6.
Proof. by vm_compute. Qed.

(** C5. The split index. For every shuffled list of [K] manifolds
    ([K < 2^53]) and every binary64 [split_ratio] in [[0, 1]], the split
    returns, and with [n = floor(K * split_ratio)], the product being the
    binary64 product Python computes, the first [n] manifolds make up the
    train group and the remaining [K - n] the test group; [n] is the
    floor of the exact product or one more. In particular, with
    [split_ratio = 0.8] and ten manifolds, exactly eight manifolds, with
    all their entries, go to train and two to test. *)
Theorem split_at_floor :
  (∀ (A : Type) (dataset : list (list A)) (split_ratio : Float64.float),
     Z.of_nat (length dataset) < 2 ^ 53 →
     valid_binary Float64.prec Float64.emax split_ratio = true →
     Float64.leb Float64.zero split_ratio = true →
     Float64.leb split_ratio Float64.one = true →
     ∃ n : nat,
       floor_of_product (Z.of_nat (length dataset)) split_ratio
         = Ok (Z.of_nat n)
       ∧ split_dataset dataset split_ratio
         = Ok (flatten (take n dataset), flatten (drop n dataset))
       ∧ length (take n dataset) = n
       ∧ length (drop n dataset) = (length dataset - n)%nat
       ∧ (n <= length dataset)%nat
       ∧ floor_of_exact_product (Z.of_nat (length dataset)) split_ratio
         <= Z.of_nat n
         <= floor_of_exact_product (Z.of_nat (length dataset)) split_ratio + 1)
  ∧ (∀ (A : Type) (dataset : list (list A)),
       length dataset = 10%nat →
       split_dataset dataset (Float64.literal 8 10)
         = Ok (flatten (take 8 dataset), flatten (drop 8 dataset))
       ∧ length (take 8 dataset) = 8%nat
       ∧ length (drop 8 dataset) = 2%nat).
Proof.
  split.
  - intros A dataset r Hlen Hv H0 H1.
    destruct (train_dataset_size_unit (length dataset) r Hlen Hv H0 H1)
      as (n & Hsize & Hn & Hfloor & Hexact).
    exists (Z.to_nat n). rewrite Z2Nat.id by lia.
    split; [done |]. split.
    { unfold split_dataset. rewrite Hsize. cbn.
      unfold slice_to, slice_from. by rewrite slice_index_in_range. }
    split; [apply length_take_le; lia |].
    split; [by rewrite length_drop |]. split; [lia | done].
  - intros A dataset Hlen. unfold split_dataset. rewrite Hlen.
    replace (train_dataset_size 10 (Float64.literal 8 10)) with (Ok 8)
      by (by vm_compute).
    cbn. unfold slice_to, slice_from. rewrite Hlen. cbn.
    split; [done |]. rewrite length_take_le, length_drop by lia. lia.
Qed.

Lemma split_at_floor_witness :
  Z.of_nat (length (replicate 10 [1%nat; 2%nat])) < 2 ^ 53
  ∧ valid_binary Float64.prec Float64.emax (Float64.literal 8 10) = true
  ∧ Float64.leb Float64.zero (Float64.literal 8 10) = true
  ∧ Float64.leb (Float64.literal 8 10) Float64.one = true
  ∧ ∃ n : nat,
      floor_of_product (Z.of_nat (length (replicate 10 [1%nat; 2%nat])))
        (Float64.literal 8 10) = Ok (Z.of_nat n)
      ∧ split_dataset (replicate 10 [1%nat; 2%nat]) (Float64.literal 8 10)
        = Ok (flatten (take n (replicate 10 [1%nat; 2%nat])),
              flatten (drop n (replicate 10 [1%nat; 2%nat])))
      ∧ length (take n (replicate 10 [1%nat; 2%nat])) = n
      ∧ length (drop n (replicate 10 [1%nat; 2%nat]))
        = (length (replicate 10 [1%nat; 2%nat]) - n)%nat
      ∧ (n <= length (replicate 10 [1%nat; 2%nat]))%nat
      ∧ floor_of_exact_product
          (Z.of_nat (length (replicate 10 [1%nat; 2%nat])))
          (Float64.literal 8 10)
        <= Z.of_nat n
        <= floor_of_exact_product
             (Z.of_nat (length (replicate 10 [1%nat; 2%nat])))
             (Float64.literal 8 10) + 1.
Proof.
  assert (Hlen : Z.of_nat (length (replicate 10 [1%nat; 2%nat])) < 2 ^ 53)
    by reflexivity.
  assert (Hv : valid_binary Float64.prec Float64.emax (Float64.literal 8 10)
               = true) by (vm_compute; reflexivity).
  assert (H0 : Float64.leb Float64.zero (Float64.literal 8 10) = true)
    by (vm_compute; reflexivity).
  assert (H1 : Float64.leb (Float64.literal 8 10) Float64.one = true)
    by (vm_compute; reflexivity).
  split; [exact Hlen |]. split; [exact Hv |]. split; [exact H0 |].
  split; [exact H1 |].
  exact (proj1 split_at_floor nat _ _ Hlen Hv H0 H1).
Defined.

(** ** The worker task *)

Lemma merge_round_app t (l1 l2 : list (list CYDatum)) :
  merge_round t (l1 ++ l2) = merge_round (merge_round t l1) l2.
Proof. unfold merge_round. apply foldl_app. Qed.

(** A task that returned the empty list leaves no trace in the round. *)
Lemma merge_round_empty_task t (before after : list (list CYDatum)) :
  merge_round t (before ++ [] :: after) = merge_round t (before ++ after).
Proof. by rewrite !merge_round_app. Qed.

Section WorkerFacts.

Context `{CYTools}.

(** C7. Backend fallback. When the primary backend, [cgal], raises inside
    a task, the task makes exactly one more sampling call: the same call
    (same [N], same seed) with the fallback backend, [qhull]. When that
    call returns, the task goes on with its triangulations; when it raises
    too, the task returns the empty list and no exception leaves it. Such
    a task adds nothing to the table when the round is merged, and the
    round is merged as if the task were not there. *)
Theorem backend_fallback (N seed : Z) :
  random_triangulations_fast (mkCall N seed cgal) = Raise →
  (generate_CYs N seed).1 = [mkCall N seed cgal; mkCall N seed qhull]
  ∧ (∀ triangulations_list,
       random_triangulations_fast (mkCall N seed qhull)
         = Ok triangulations_list →
       (generate_CYs N seed).2 = res_map cy_datum triangulations_list)
  ∧ (random_triangulations_fast (mkCall N seed qhull) = Raise →
     (generate_CYs N seed).2 = Ok []
     ∧ ∀ t before after,
         merge_round t (before ++ [] :: after)
         = merge_round t (before ++ after)).
Proof.
  intros Hprimary. unfold generate_CYs. rewrite Hprimary.
  destruct (random_triangulations_fast (mkCall N seed qhull)) as [ts|] eqn:Hfb;
    cbn [fst snd].
  - split; [done |]. split; [by intros ? [= <-] | done].
  - split; [done |]. split; [done |]. intros _. split; [done |].
    apply merge_round_empty_task.
Qed.

End WorkerFacts.

Lemma backend_fallback_witness :
  mock_sampling (mkCall 100 7 cgal) = Raise
  ∧ (mock_generate_CYs 100 7).1 = [mkCall 100 7 cgal; mkCall 100 7 qhull]
  ∧ (mock_sampling (mkCall 100 7 qhull) = Raise →
     (mock_generate_CYs 100 7).2 = Ok []
     ∧ ∀ t before after,
         merge_round t (before ++ [] :: after)
         = merge_round t (before ++ after)).
Proof.
  assert (Hprimary : mock_sampling (mkCall 100 7 cgal) = Raise)
    by reflexivity.
  split; [exact Hprimary |].
  pose proof (@backend_fallback mock_library 100 7 Hprimary)
    as (Hcalls & _ & Hboth).
  split; [exact Hcalls | exact Hboth].
Defined.

(** ** Normalisation *)

Section NormaliseFacts.

Variables np_mean np_std : list Z → Float64.float.




End NormaliseFacts.


(** ** The residual layer at initialisation *)

Module ModelFacts.

Import Model.
Local Open Scope Qc_scope.





Lemma linear_ok in_features out_features (l : Linear) (x : tensor) :
  linear_shape in_features out_features l → length x = in_features →
  ∃ d, linear l x = Ok d ∧ length d = out_features.
Proof.
  intros (Hw & Hb & Hrows) Hx. unfold linear. rewrite decide_True.
  - eexists. split; [done |].
    rewrite length_zip_with, length_map, Hw, Hb. lia.
  - split; [by rewrite Hx | by rewrite Hw, Hb].
Qed.





Lemma relu_length (x : tensor) : length (relu x) = length x.
Proof. apply length_map. Qed.




End ModelFacts.




(** With the gate away from zero the layer is no longer [relu]: in
    evaluation mode the trained demonstration layer sends [x = (-1, 2)] to
    [(0, 3/4)], where [relu x = (0, 2)]; a tensor of the wrong size is
    refused. *)
Example layer_trained_not_relu :
  Demo.fractions
    (Model.layer_forward Demo.layer_trained Model.Evaluation Demo.x)
  = Ok [0; 3 # 4]%Q
  ∧ Demo.fractions (Ok (Model.relu Demo.x)) = Ok [0; 2]%Q
  ∧ Model.layer_forward Demo.layer_trained Model.Evaluation [Demo.q 1 1]
    = Raise.
Proof. by vm_compute. Qed.

(** ** The definitions on small inputs *)

Example fingerprint_sorts_columns :
  fingerprint [[1; 1; 2; -3]; [0; 0; 1; 5]; [0; 1; 1; 2]]
  = [[0; 0; 1; -3]; [0; 1; 1; 2]; [1; 1; 2; 5]].
Proof. reflexivity. Qed.

Example dict_append_existing_and_new :
  dict_append [[2]] ([7], Float64.zero)
    (dict_append [[1]] ([6], Float64.zero)
       (dict_append [[2]] ([5], Float64.zero) []))
  = [([[2]], [([5], Float64.zero); ([7], Float64.zero)]);
     ([[1]], [([6], Float64.zero)])].
Proof. reflexivity. Qed.

Example slices :
  slice_to 2 [10; 20; 30] = [10; 20]
  ∧ slice_from 2 [10; 20; 30] = [30]
  ∧ slice_to (-1) [10; 20; 30] = [10; 20]
  ∧ slice_from (-1) [10; 20; 30] = [30]
  ∧ slice_to 7 [10; 20; 30] = [10; 20; 30]
  ∧ slice_from 7 [10; 20; 30] = [].
Proof. repeat split. Qed.

Example shuffle_with_zero_oracle :
  random_shuffle (fun _ => 0%nat) [1; 2; 3; 4] = [2; 3; 4; 1].
Proof. reflexivity. Qed.

Example binary64_literals :
  Float64.literal 8 10 = S754_finite false 7205759403792794 (-53)
  ∧ train_dataset_size 10 (Float64.literal 8 10) = Ok 8
  ∧ train_dataset_size 3 (Float64.literal 8 10) = Ok 2
  ∧ train_dataset_size 10 S754_nan = Raise
  ∧ Float64.int_lt 999999 (Float64.round_int (10 ^ 6)) = true
  ∧ Float64.int_lt 1000000 (Float64.round_int (10 ^ 6)) = false.
Proof. by vm_compute. Qed.

Example worker_falls_back :
  mock_generate_CYs 100 8
  = ([mkCall 100 8 cgal; mkCall 100 8 qhull],
     Ok [mkDatum [[0; 0; 0; 1]; [0; 0; 1; 1]] [1; 2] (Float64.round_int 1);
         mkDatum [[0; 0; 0; 1]; [0; 0; 1; 2]] [2; 3] (Float64.round_int 2)]).
Proof. by vm_compute. Qed.

Example loop_stops_at_target :
  sampling_loop mock_fresh (Float64.round_int 3) 100 1 1 10 initial_state
  = Done (mkState [([[0; 0; 0; 0]], [([0], Float64.zero)]);
                   ([[0; 0; 0; 1]], [([1], Float64.zero)]);
                   ([[0; 0; 0; 2]], [([2], Float64.zero)])] 3 3).
Proof. by vm_compute. Qed.

(** * Further properties *)

(** ** The fingerprint as a canonical form *)

Section CanonicalForm.

Import Np.

Lemma sort1_length (l : list Z) : length (sort1 l) = length l.
Proof. unfold sort1. by rewrite merge_sort_Permutation. Qed.

Lemma sort1_Sorted (l : list Z) : Sorted Z.le (sort1 l).
Proof. apply Sorted_merge_sort; apply _. Qed.

Lemma nth_seq_id (c : list Z) : map (fun i => nth i c 0) (seq 0 (length c)) = c.
Proof.
  induction c as [|v c IH]; [done |]. cbn [length seq map nth]. f_equal.
  rewrite <- seq_shift, map_map. exact IH.
Qed.

(** Reading column [j] back from an array built from columns. *)
Lemma column_of_columns n (cs : list (list Z)) j c :
  cs !! j = Some c → length c = n → column j (of_columns n cs) = c.
Proof.
  intros Hj Hc. unfold column, of_columns. rewrite map_map.
  rewrite <- (nth_seq_id c), Hc. apply map_ext. intros i.
  change (map ?g ?l) with (g <$> l).
  rewrite (nth_lookup_Some _ _ _ (nth i c 0)); [done |].
  by rewrite list_lookup_fmap, Hj.
Qed.

Lemma columns_lookup d (a : matrix) j :
  (j < d)%nat → columns d a !! j = Some (column j a).
Proof.
  intros Hj. unfold columns. change (map ?g ?l) with (g <$> l).
  by rewrite list_lookup_fmap, lookup_seq_lt.
Qed.

Lemma column_length j (a : matrix) : length (column j a) = length a.
Proof. apply length_map. Qed.

Lemma sort_axis0_length (a : matrix) : length (sort_axis0 a) = length a.
Proof. unfold sort_axis0, of_columns. by rewrite length_map, length_seq. Qed.

Lemma sort_axis0_rectangular (a : matrix) :
  rectangular (ncols a) (sort_axis0 a).
Proof.
  unfold rectangular, sort_axis0, of_columns. apply Forall_forall.
  intros r Hr. apply list_elem_of_In, in_map_iff in Hr as (i & <- & _).
  unfold columns. by rewrite !length_map, length_seq.
Qed.

Lemma sort_axis0_column d (a : matrix) j :
  rectangular d a → (j < d)%nat →
  column j (sort_axis0 a) = sort1 (column j a).
Proof.
  intros Ha Hj. destruct a as [|r a].
  - by cbn.
  - unfold sort_axis0. rewrite (ncols_rectangular d) by done.
    apply column_of_columns.
    + change (map sort1 ?l) with (sort1 <$> l).
      by rewrite list_lookup_fmap, columns_lookup.
    + by rewrite sort1_length, column_length.
Qed.

End CanonicalForm.

(** X1. The fingerprint is a canonical form of the coo tensor: it has the
    shape of the tensor, its column [j] is column [j] of the tensor in
    ascending order, and taking the fingerprint of a fingerprint changes
    nothing. *)
Theorem fingerprint_canonical d (a : Np.matrix) :
  Np.rectangular d a →
  length (fingerprint a) = length a
  ∧ Np.rectangular (Np.ncols a) (fingerprint a)
  ∧ (∀ j, (j < d)%nat →
       Np.column j (fingerprint a) = Np.sort1 (Np.column j a)
       ∧ Sorted Z.le (Np.column j (fingerprint a))
       ∧ Np.column j (fingerprint a) ≡ₚ Np.column j a)
  ∧ fingerprint (fingerprint a) = fingerprint a.
Proof.
  intros Ha. unfold fingerprint, tuple_of_rows. rewrite !map_id.
  split; [apply sort_axis0_length |].
  split; [apply sort_axis0_rectangular |].
  split.
  - intros j Hj. rewrite (sort_axis0_column d) by done.
    split; [done |]. split; [apply sort1_Sorted |].
    unfold Np.sort1. apply merge_sort_Permutation.
  - destruct a as [|r a]; [done |].
    assert (Hd : Np.ncols (r :: a) = d) by (by apply ncols_rectangular).
    pose proof (sort_axis0_rectangular (r :: a)) as Hrect. rewrite Hd in Hrect.
    apply (sort_axis0_columns d); try done.
    + by rewrite sort_axis0_length.
    + intros j Hj. rewrite (sort_axis0_column d) by done.
      unfold Np.sort1. apply merge_sort_Permutation.
Qed.

Lemma fingerprint_canonical_witness :
  Np.rectangular 4 [[1; 1; 2; -3]; [0; 0; 1; 5]; [0; 1; 1; 2]]
  ∧ fingerprint (fingerprint [[1; 1; 2; -3]; [0; 0; 1; 5]; [0; 1; 1; 2]])
    = fingerprint [[1; 1; 2; -3]; [0; 0; 1; 5]; [0; 1; 1; 2]].
Proof.
  assert (Hr : Np.rectangular 4 [[1; 1; 2; -3]; [0; 0; 1; 5]; [0; 1; 1; 2]])
    by (repeat constructor).
  split; [exact Hr |].
  exact (proj2 (proj2 (proj2 (fingerprint_canonical 4 _ Hr)))).
Defined.

(** ** The worker task beyond the fallback *)

Lemma res_map_Forall2 {A B} (f : A → res B) (l : list A) (ys : list B) :
  res_map f l = Ok ys → Forall2 (fun x y => f x = Ok y) l ys.
Proof.
  unfold res_map. revert ys. induction l as [|x l IH]; intros ys; cbn [mapM].
  - intros [= <-]. constructor.
  - destruct (f x) as [y|] eqn:Hx; [| done]. cbn.
    destruct (mapM f l) as [ys'|]; [| done]. cbn. intros [= <-].
    constructor; [done | by apply IH].
Qed.

Lemma res_map_raise {A B} (f : A → res B) (l : list A) x :
  x ∈ l → f x = Raise → res_map f l = Raise.
Proof.
  unfold res_map. intros Hin Hx. induction Hin as [x l|x x' l _ IH];
    cbn [mapM].
  - by rewrite Hx.
  - destruct (f x'); [| done]. cbn. by rewrite IH.
Qed.

Lemma res_map_total {A B} (f : A → res B) (l : list A) :
  (∀ x, x ∈ l → ∃ y, f x = Ok y) →
  ∃ ys, res_map f l = Ok ys ∧ length ys = length l.
Proof.
  unfold res_map. induction l as [|x l IH]; intros Hf; cbn [mapM].
  - by exists [].
  - destruct (Hf x) as [y Hy]; [left |]. rewrite Hy. cbn.
    destruct IH as (ys & -> & Hlen); [intros x' Hx'; apply Hf; by right |].
    exists (y :: ys). cbn. by rewrite Hlen.
Qed.

Section WorkerMore.

Context `{CYTools}.

(** What one pass of the [for] loop needs to succeed, and what it then
    appends. *)
Lemma cy_datum_inv (t : Triangulation) (d : CYDatum) :
  cy_datum t = Ok d →
  ∃ phi cy coo tip volume,
    gkz_phi t = Ok phi ∧ get_cy t = Ok cy
    ∧ intersection_numbers cy = Ok coo
    ∧ tip_of_stretched_cone cy = Ok tip
    ∧ compute_cy_volume cy tip = Ok volume
    ∧ d = mkDatum (fingerprint coo) (drop 1 phi) (log10 volume).
Proof.
  unfold cy_datum. intros Hd.
  destruct (gkz_phi t) as [phi|] eqn:H1; [| done]. cbn in Hd.
  destruct (get_cy t) as [cy|] eqn:H2; [| done]. cbn in Hd.
  destruct (intersection_numbers cy) as [coo|] eqn:H3; [| done]. cbn in Hd.
  destruct (tip_of_stretched_cone cy) as [tip|] eqn:H4; [| done]. cbn in Hd.
  destruct (compute_cy_volume cy tip) as [volume|] eqn:H5; [| done].
  cbn in Hd. injection Hd as <-.
  exists phi, cy, coo, tip, volume. repeat split; done.
Qed.

(** [ts] is what the sampling step hands to the [for] loop: the answer of
    [cgal], or that of [qhull] when [cgal] raised. *)
Lemma generate_CYs_delivered (N seed : Z) (ts : list Triangulation) :
  random_triangulations_fast (mkCall N seed cgal) = Ok ts
  ∨ (random_triangulations_fast (mkCall N seed cgal) = Raise
     ∧ random_triangulations_fast (mkCall N seed qhull) = Ok ts) →
  (generate_CYs N seed).2 = res_map cy_datum ts.
Proof.
  unfold generate_CYs. intros [-> | [-> ->]]; done.
Qed.

(** X2. One datum per triangulation. When the sampling step delivers
    triangulations (from [cgal], or from [qhull] after [cgal] raised) and
    the task returns, it returns one datum per triangulation, in order:
    the fingerprint of its intersection numbers, its GKZ vector without
    the first coordinate, and the [log10] of its volume. The task does
    return when the geometry calls return on every triangulation; and
    when [cgal] answers, [qhull] is never called. *)
Theorem worker_one_datum_per_triangulation (N seed : Z)
    (ts : list Triangulation) :
  random_triangulations_fast (mkCall N seed cgal) = Ok ts
  ∨ (random_triangulations_fast (mkCall N seed cgal) = Raise
     ∧ random_triangulations_fast (mkCall N seed qhull) = Ok ts) →
  (∀ data, (generate_CYs N seed).2 = Ok data →
     Forall2 (fun t d =>
                ∃ phi cy coo tip volume,
                  gkz_phi t = Ok phi ∧ get_cy t = Ok cy
                  ∧ intersection_numbers cy = Ok coo
                  ∧ tip_of_stretched_cone cy = Ok tip
                  ∧ compute_cy_volume cy tip = Ok volume
                  ∧ d = mkDatum (fingerprint coo) (drop 1 phi)
                          (log10 volume))
             ts data)
  ∧ ((∀ t, t ∈ ts → ∃ d, cy_datum t = Ok d) →
     ∃ data, (generate_CYs N seed).2 = Ok data ∧ length data = length ts)
  ∧ (random_triangulations_fast (mkCall N seed cgal) = Ok ts →
     (generate_CYs N seed).1 = [mkCall N seed cgal]).
Proof.
  intros Hts. rewrite (generate_CYs_delivered N seed ts Hts).
  split; [| split].
  - intros data Hdata%res_map_Forall2.
    eapply Forall2_impl; [exact Hdata |]. intros t d. apply cy_datum_inv.
  - apply res_map_total.
  - intros Hcgal. unfold generate_CYs. by rewrite Hcgal.
Qed.

(** X3. Only the sampling call is guarded. When the sampling step
    delivers triangulations and a geometry call raises on one of them
    (GKZ vector, Calabi-Yau, intersection numbers, cone tip or volume),
    the exception leaves the task: nothing is returned for the whole
    batch, with either backend. *)
Theorem worker_processing_error_escapes (N seed : Z)
    (ts : list Triangulation) (t : Triangulation) :
  random_triangulations_fast (mkCall N seed cgal) = Ok ts
  ∨ (random_triangulations_fast (mkCall N seed cgal) = Raise
     ∧ random_triangulations_fast (mkCall N seed qhull) = Ok ts) →
  t ∈ ts →
  gkz_phi t = Raise
  ∨ get_cy t = Raise
  ∨ (∃ cy, get_cy t = Ok cy
           ∧ (intersection_numbers cy = Raise
              ∨ tip_of_stretched_cone cy = Raise
              ∨ ∃ tip, tip_of_stretched_cone cy = Ok tip
                       ∧ compute_cy_volume cy tip = Raise)) →
  (generate_CYs N seed).2 = Raise.
Proof.
  intros Hts Hin Hraise. rewrite (generate_CYs_delivered N seed ts Hts).
  apply (res_map_raise _ _ t Hin). unfold cy_datum.
  destruct Hraise as [-> | [Hcy | (cy & Hcy & Hrest)]]; [done | |].
  - destruct (gkz_phi t); [| done]. cbn. by rewrite Hcy.
  - destruct (gkz_phi t); [| done]. cbn. rewrite Hcy. cbn.
    destruct Hrest as [-> | [Htip | (tip & Htip & Hvol)]]; [done | |].
    + destruct (intersection_numbers cy); [| done]. cbn. by rewrite Htip.
    + destruct (intersection_numbers cy); [| done]. cbn. rewrite Htip. cbn.
      by rewrite Hvol.
Qed.

End WorkerMore.

Lemma worker_one_datum_per_triangulation_witness :
  (mock_sampling (mkCall 100 8 cgal) = Raise
   ∧ mock_sampling (mkCall 100 8 qhull) = Ok [1; 2])
  ∧ ∃ data, (mock_generate_CYs 100 8).2 = Ok data
            ∧ length data = length [1; 2].
Proof.
  assert (Hts : @random_triangulations_fast mock_library (mkCall 100 8 cgal)
                = Ok [1; 2]
                ∨ (@random_triangulations_fast mock_library
                     (mkCall 100 8 cgal) = Raise
                   ∧ @random_triangulations_fast mock_library
                       (mkCall 100 8 qhull) = Ok [1; 2]))
    by (right; split; reflexivity).
  split; [split; reflexivity |].
  apply (proj1 (proj2 (@worker_one_datum_per_triangulation mock_library
                         100 8 [1; 2] Hts))).
  intros t _. eexists. reflexivity.
Defined.

Lemma worker_processing_error_escapes_witness :
  2 ∈ [1; 2; 3]
  ∧ @compute_cy_volume mock_library_degenerate 2 2 = Raise
  ∧ (@generate_CYs mock_library_degenerate 100 8).2 = Raise.
Proof.
  assert (Hin : 2 ∈ [1; 2; 3]) by (right; left).
  assert (Hvol : @compute_cy_volume mock_library_degenerate 2 2 = Raise)
    by reflexivity.
  split; [exact Hin | split; [exact Hvol |]].
  apply (@worker_processing_error_escapes mock_library_degenerate 100 8
           [1; 2; 3] 2).
  - left. reflexivity.
  - exact Hin.
  - right. right. exists 2. split; [reflexivity |].
    right. right. exists 2. split; [reflexivity | exact Hvol].
Defined.

(** ** The dedup table as a grouping *)

Lemma dict_get_append k k' e (t : DedupTable) :
  dict_get k (dict_append k' e t)
  = if decide (k = k') then dict_get k t ++ [e] else dict_get k t.
Proof.
  induction t as [|[k'' es] t IH]; cbn [dict_append dict_get].
  - by destruct (decide (k = k')).
  - destruct (decide (k' = k'')) as [->|Hne]; cbn [dict_get].
    + by destruct (decide (k = k'')).
    + rewrite IH. destruct (decide (k = k'')) as [->|]; [| done].
      by rewrite decide_False.
Qed.

Lemma dict_get_merge_task k (cy_data : list CYDatum) : ∀ t : DedupTable,
  dict_get k (merge_task t cy_data)
  = dict_get k t ++ (entry_of <$> with_fingerprint k cy_data).
Proof.
  unfold merge_task, with_fingerprint.
  induction cy_data as [|d l IH]; intros t; cbn [foldl].
  - by rewrite filter_nil, fmap_nil, app_nil_r.
  - rewrite IH, dict_get_append, filter_cons.
    destruct (decide (k = d_fingerprint d)) as [->|Hne].
    + rewrite decide_True by done. by rewrite fmap_cons, <- (assoc_L (++)).
    + by rewrite decide_False.
Qed.

Lemma merge_round_concat (ls : list (list CYDatum)) : ∀ t : DedupTable,
  merge_round t ls = merge_task t (concat ls).
Proof.
  unfold merge_round, merge_task.
  induction ls as [|l ls IH]; intros t; cbn [foldl concat]; [done |].
  by rewrite IH, foldl_app.
Qed.

(** X4. The table groups by fingerprint and keeps the arrival order.
    After a round is merged, the entries stored under a fingerprint [k] are
    those stored before, followed by the entries of the data of the round
    whose fingerprint is [k], in the order the tasks returned them;
    starting from the empty table, these are all the entries under [k]. *)
Theorem merge_round_groups (t : DedupTable) (cy_data_ray : list (list CYDatum))
    (k : Fingerprint) :
  dict_get k (merge_round t cy_data_ray)
  = dict_get k t ++ (entry_of <$> with_fingerprint k (concat cy_data_ray))
  ∧ dict_get k (merge_round [] cy_data_ray)
    = entry_of <$> with_fingerprint k (concat cy_data_ray).
Proof.
  rewrite !merge_round_concat, !dict_get_merge_task. done.
Qed.

Lemma merge_round_groups_witness :
  dict_get [[0; 0; 0; 3]]
    (merge_round [([[0; 0; 0; 3]], [([9], Float64.one)])]
       [[mock_datum 3; mock_datum 4]; []; [mock_datum 3]])
  = [([9], Float64.one); ([3], Float64.zero); ([3], Float64.zero)].
Proof.
  rewrite (proj1 (merge_round_groups _ _ _)). reflexivity.
Defined.

Lemma dict_append_keys_prefix k e (t : DedupTable) :
  dict_keys t `prefix_of` dict_keys (dict_append k e t).
Proof.
  rewrite dict_append_keys. case_decide; [done |]. by apply prefix_app_r.
Qed.

Lemma merge_task_keys (cy_data : list CYDatum) : ∀ t : DedupTable,
  dict_keys t `prefix_of` dict_keys (merge_task t cy_data)
  ∧ ∀ k, k ∈ dict_keys (merge_task t cy_data)
         ↔ k ∈ dict_keys t ∨ k ∈ d_fingerprint <$> cy_data.
Proof.
  unfold merge_task. induction cy_data as [|d l IH]; intros t; cbn [foldl].
  - split; [done |]. intros k. rewrite fmap_nil, elem_of_nil. tauto.
  - destruct (IH (dict_append (d_fingerprint d) (entry_of d) t))
      as [Hpre Hmem].
    split.
    + etrans; [apply dict_append_keys_prefix | exact Hpre].
    + intros k. rewrite Hmem, dict_append_keys, fmap_cons, elem_of_cons.
      case_decide as Hin.
      * split; [tauto |]. intros [? | [-> | ?]]; tauto.
      * rewrite elem_of_app, list_elem_of_singleton. tauto.
Qed.

(** X5. The keys of the table are the distinct fingerprints seen, in the
    order of first arrival. Merging a round keeps the keys distinct, only
    appends to their list, and makes the key set the union of the old keys
    and the fingerprints of the round; so [len(CY_dict)] is the number of
    distinct fingerprints seen and never decreases. *)
Theorem merge_round_keys (t : DedupTable)
    (cy_data_ray : list (list CYDatum)) :
  NoDup (dict_keys t) →
  NoDup (dict_keys (merge_round t cy_data_ray))
  ∧ dict_keys t `prefix_of` dict_keys (merge_round t cy_data_ray)
  ∧ (list_to_set (dict_keys (merge_round t cy_data_ray)) : gset Fingerprint)
    = list_to_set (dict_keys t)
      ∪ list_to_set (d_fingerprint <$> concat cy_data_ray)
  ∧ length (merge_round t cy_data_ray)
    = size (list_to_set (dict_keys t)
            ∪ list_to_set (d_fingerprint <$> concat cy_data_ray)
            : gset Fingerprint)
  ∧ (length t <= length (merge_round t cy_data_ray))%nat.
Proof.
  intros Hnd.
  pose proof (merge_round_NoDup t cy_data_ray Hnd) as Hnd'.
  destruct (merge_task_keys (concat cy_data_ray) t) as [Hpre Hmem].
  rewrite <- merge_round_concat in Hpre, Hmem.
  assert (Hset : (list_to_set (dict_keys (merge_round t cy_data_ray))
                  : gset Fingerprint)
                 = list_to_set (dict_keys t)
                   ∪ list_to_set (d_fingerprint <$> concat cy_data_ray)).
  { apply set_eq. intros k.
    rewrite elem_of_union, !elem_of_list_to_set. apply Hmem. }
  split; [done |]. split; [done |]. split; [done |]. split.
  - rewrite <- Hset, size_list_to_set by done.
    unfold dict_keys. by rewrite length_fmap.
  - apply prefix_length in Hpre. unfold dict_keys in Hpre.
    by rewrite !length_fmap in Hpre.
Qed.

Lemma merge_round_keys_witness :
  NoDup (dict_keys [([[1]], [([5], Float64.zero)])])
  ∧ length (merge_round [([[1]], [([5], Float64.zero)])]
              [[mock_datum 3; mock_datum 3]; []; [mock_datum 4]])
    = size (list_to_set (dict_keys [([[1]], [([5], Float64.zero)])])
            ∪ list_to_set
                (d_fingerprint
                 <$> concat [[mock_datum 3; mock_datum 3]; [];
                             [mock_datum 4]])
            : gset Fingerprint).
Proof.
  assert (Hnd : NoDup (dict_keys [([[1]], [([5], Float64.zero)])]))
    by (apply NoDup_singleton).
  split; [exact Hnd |].
  exact (proj1 (proj2 (proj2 (proj2 (merge_round_keys _ _ Hnd))))).
Defined.

(** ** The sampling loop: how it ends, when it ends, when it does not *)

Section LoopMore.

Variable remote : nat → Z → res (list CYDatum).
Variable num_CYs : Float64.float.
Variables max_dataset_size num_threads compute_chunk_size : Z.

Lemma loop_body_inv st st1 :
  loop_body remote num_threads compute_chunk_size st = Ok st1 →
  ∃ ls, ray_get remote num_threads compute_chunk_size (tasks_run st) = Ok ls
        ∧ st1 = mkState (merge_round (CY_dict st) ls)
                  (triangulation_ctr st + num_threads * compute_chunk_size)
                  (tasks_run st + Z.to_nat num_threads).
Proof.
  unfold loop_body. destruct (ray_get _ _ _ _) as [ls|]; [| done].
  intros [= <-]. by exists ls.
Qed.

Lemma loop_exit_from fuel : ∀ st st',
  sampling_loop remote num_CYs max_dataset_size num_threads
    compute_chunk_size fuel st = Done st' →
  loop_cond num_CYs max_dataset_size st' = false
  ∧ dict_keys (CY_dict st) `prefix_of` dict_keys (CY_dict st')
  ∧ ∃ rounds : nat,
      (rounds < fuel)%nat
      ∧ triangulation_ctr st'
        = triangulation_ctr st
          + Z.of_nat rounds * (num_threads * compute_chunk_size)
      ∧ tasks_run st' = (tasks_run st + rounds * Z.to_nat num_threads)%nat.
Proof.
  induction fuel as [|fuel IH]; intros st st'; [done |].
  cbn [sampling_loop]. destruct (loop_cond _ _ st) eqn:Hc.
  - destruct (loop_body _ _ _ st) as [st1|] eqn:Hb; [| done].
    intros (Hexit & Hpre & rounds & Hr & Hctr & Htasks)%IH.
    apply loop_body_inv in Hb as (ls & _ & ->).
    cbn [CY_dict triangulation_ctr tasks_run] in *.
    split; [done |]. split.
    + etrans; [| exact Hpre]. rewrite merge_round_concat.
      apply merge_task_keys.
    + exists (S rounds). split; [lia |]. split; [| lia].
      rewrite Hctr, Nat2Z.inj_succ. lia.
  - intros [= <-]. split; [done |]. split; [done |].
    exists 0%nat. split; [lia |]. split; [lia | lia].
Qed.

(** X6. How the loop ends. A run that ends has made a whole number of
    rounds: the counter is that number times
    [num_threads * compute_chunk_size], and that number times
    [num_threads] tasks were dispatched. At the end either the table
    holds at least [num_CYs] manifolds or the counter has reached the
    cap; the keys are distinct. *)
Theorem loop_exit fuel st :
  sampling_loop remote num_CYs max_dataset_size num_threads
    compute_chunk_size fuel initial_state = Done st →
  (Float64.int_lt (Z.of_nat (length (CY_dict st))) num_CYs = false
   ∨ max_dataset_size <= triangulation_ctr st)
  ∧ NoDup (dict_keys (CY_dict st))
  ∧ ∃ rounds : nat,
      (rounds < fuel)%nat
      ∧ triangulation_ctr st
        = Z.of_nat rounds * (num_threads * compute_chunk_size)
      ∧ tasks_run st = (rounds * Z.to_nat num_threads)%nat.
Proof.
  intros Hrun.
  destruct (loop_exit_from fuel _ _ Hrun)
    as (Hexit & _ & rounds & Hr & Hctr & Htasks).
  split; [| split].
  - unfold loop_cond in Hexit. apply andb_false_iff in Hexit as [?|Hlt].
    + by left.
    + right. by apply Z.ltb_ge.
  - apply (loop_NoDup _ _ _ _ _ _ _ _ Hrun). constructor.
  - exists rounds. by cbn in *.
Qed.

Lemma loop_terminates_from (r : nat) : ∀ st fuel,
  (∀ i, ∃ l, remote i compute_chunk_size = Ok l) →
  0 < num_threads * compute_chunk_size →
  max_dataset_size
    <= triangulation_ctr st
       + Z.of_nat r * (num_threads * compute_chunk_size) →
  (r < fuel)%nat →
  ∃ st', sampling_loop remote num_CYs max_dataset_size num_threads
           compute_chunk_size fuel st = Done st'.
Proof.
  induction r as [|r IH]; intros st fuel Hremote Hpos Hcap Hfuel;
    (destruct fuel as [|fuel]; [lia |]); cbn [sampling_loop].
  - unfold loop_cond.
    replace (triangulation_ctr st <? max_dataset_size) with false
      by (symmetry; apply Z.ltb_ge; lia).
    rewrite andb_false_r. by exists st.
  - destruct (loop_cond _ _ st); [| by exists st].
    destruct (loop_body_ok remote num_threads compute_chunk_size
                (fun _ => True) st) as (ls & _ & _ & ->).
    { intros i. destruct (Hremote i) as [l Hl]. eauto. }
    apply IH; try done; [| lia]. cbn [triangulation_ctr]. lia.
Qed.

(** More fuel does not change how a run ends. *)
Lemma loop_fuel_mono (f : nat) : ∀ (f' : nat) st st',
  sampling_loop remote num_CYs max_dataset_size num_threads
    compute_chunk_size f st = Done st' →
  (f <= f')%nat →
  sampling_loop remote num_CYs max_dataset_size num_threads
    compute_chunk_size f' st = Done st'.
Proof.
  induction f as [|f IH]; intros f' st st' Hrun Hle; [done |].
  destruct f' as [|f']; [lia |]. cbn [sampling_loop] in *.
  destruct (loop_cond _ _ st); [| done].
  destruct (loop_body _ _ _ st); [| done]. apply IH; [done | lia].
Qed.

(** X7. The loop ends. When no task raises and a round samples at least
    one triangulation, the loop ends after at most [r] rounds, where [r]
    rounds reach the cap, whatever the sampler returns and whether or not
    the target is ever met. *)
Theorem loop_terminates (r fuel : nat) :
  (∀ i, ∃ l, remote i compute_chunk_size = Ok l) →
  0 < num_threads * compute_chunk_size →
  max_dataset_size <= Z.of_nat r * (num_threads * compute_chunk_size) →
  (r < fuel)%nat →
  ∃ st, sampling_loop remote num_CYs max_dataset_size num_threads
          compute_chunk_size fuel initial_state = Done st
        ∧ (tasks_run st <= r * Z.to_nat num_threads)%nat
        ∧ triangulation_ctr st
          <= Z.of_nat r * (num_threads * compute_chunk_size).
Proof.
  intros Hremote Hpos Hcap Hfuel.
  destruct (loop_terminates_from r initial_state (S r) Hremote Hpos)
    as [st Hrun]; [cbn; lia | lia |].
  destruct (loop_exit_from _ _ _ Hrun) as (_ & _ & rounds & Hr & Hctr & Ht).
  cbn in Hctr, Ht.
  assert (Hrun' : sampling_loop remote num_CYs max_dataset_size num_threads
                    compute_chunk_size fuel initial_state = Done st)
    by (apply (loop_fuel_mono (S r)); [done | lia]).
  exists st. split; [done |]. split; [nia | nia].
Qed.

(** X8. Without workers the loop does not end. With [num_threads <= 0]
    no task is dispatched, the table stays as it is and the counter does
    not grow; once the [while] condition holds it holds for ever, and no
    amount of fuel finishes the run. *)
Theorem loop_without_workers (st : loop_state) (fuel : nat) :
  num_threads <= 0 → 0 <= compute_chunk_size →
  loop_cond num_CYs max_dataset_size st = true →
  sampling_loop remote num_CYs max_dataset_size num_threads
    compute_chunk_size fuel st = OutOfFuel.
Proof.
  intros Hw Hb. revert st. induction fuel as [|fuel IH]; intros st Hc; [done |].
  cbn [sampling_loop]. rewrite Hc.
  unfold loop_body, ray_get. replace (Z.to_nat num_threads) with 0%nat by lia.
  cbn. apply IH. unfold loop_cond in *. cbn [CY_dict triangulation_ctr].
  apply andb_true_iff in Hc as [Hlen Hctr%Z.ltb_lt].
  apply andb_true_iff. split; [done |]. apply Z.ltb_lt. nia.
Qed.

(** X9. How far the cap can be overshot. From the initial state with a
    positive cap and a positive round size, a run that ends leaves the
    counter below the cap plus one round; and at or below the cap when the
    cap is a multiple of the round size. *)
Theorem cap_overshoot_bounded fuel st :
  0 < max_dataset_size →
  0 < num_threads * compute_chunk_size →
  sampling_loop remote num_CYs max_dataset_size num_threads
    compute_chunk_size fuel initial_state = Done st →
  triangulation_ctr st < max_dataset_size + num_threads * compute_chunk_size
  ∧ ((num_threads * compute_chunk_size | max_dataset_size) →
     triangulation_ctr st <= max_dataset_size).
Proof.
  intros Hcap Hpos Hrun. split.
  - destruct (loop_ctr_bound _ _ _ _ _ _ _ _ Hrun) as [-> | ?]; [cbn; lia |].
    done.
  - intros Hdiv.
    apply (loop_ctr_divisible remote num_CYs max_dataset_size num_threads
             compute_chunk_size fuel initial_state st); try done.
    + apply Z.divide_0_r.
    + cbn. lia.
Qed.

(** X10. An exception in one task ends the run. When the loop is about
    to make a round and one of the tasks of that round raises, [ray.get]
    raises and the run is aborted: nothing of the table is kept. *)
Theorem task_error_aborts (st : loop_state) (i fuel : nat) :
  loop_cond num_CYs max_dataset_size st = true →
  (i < Z.to_nat num_threads)%nat →
  remote (tasks_run st + i) compute_chunk_size = Raise →
  sampling_loop remote num_CYs max_dataset_size num_threads
    compute_chunk_size (S fuel) st = Aborted.
Proof.
  intros Hc Hi Hraise. cbn [sampling_loop]. rewrite Hc.
  unfold loop_body, ray_get.
  rewrite (res_map_raise _ _ i); [done | | done].
  apply list_elem_of_In, in_seq. lia.
Qed.

Lemma loop_entries_from fuel (R : Z → Z → Prop) :
  R 0 0 →
  (∀ a b c d, R a b → R c d → R (a + c) (b + d)) →
  0 <= num_threads →
  (∀ i l, remote i compute_chunk_size = Ok l →
          R (Z.of_nat (length l)) compute_chunk_size) →
  ∀ st st',
    sampling_loop remote num_CYs max_dataset_size num_threads
      compute_chunk_size fuel st = Done st' →
    R (Z.of_nat (length (flatten (dict_values (CY_dict st)))))
      (triangulation_ctr st) →
    R (Z.of_nat (length (flatten (dict_values (CY_dict st')))))
      (triangulation_ctr st').
Proof.
  intros R0 Radd Hw Hret.
  assert (Hround : ∀ first n ls,
    res_map (fun i => remote (first + i) compute_chunk_size) (seq 0 n)
      = Ok ls →
    R (Z.of_nat (length (concat ls))) (Z.of_nat n * compute_chunk_size)).
  { intros first n. revert first.
    induction n as [|n IH]; intros first ls.
    - intros [= <-]. exact R0.
    - unfold res_map. cbn [seq mapM].
      destruct (remote (first + 0) compute_chunk_size) as [l|] eqn:Hl;
        [| done]. cbn.
      rewrite <- seq_shift.
      destruct (mapM _ (map S (seq 0 n))) as [ls'|] eqn:Hls; [| done].
      cbn. intros [= <-]. cbn [concat].
      rewrite length_app, Nat2Z.inj_add, Nat2Z.inj_succ.
      replace (Z.succ (Z.of_nat n) * compute_chunk_size)
        with (compute_chunk_size + Z.of_nat n * compute_chunk_size) by lia.
      apply Radd; [by apply (Hret (first + 0)%nat) |].
      apply (IH (S first)). unfold res_map.
      rewrite <- Hls. clear. generalize (seq 0 n) as l. intros l.
      induction l as [|x l IH]; [done |]. cbn [map mapM].
      replace (S first + x)%nat with (first + S x)%nat by lia.
      by rewrite IH. }
  induction fuel as [|fuel IH]; intros st st'; [done |].
  cbn [sampling_loop]. destruct (loop_cond _ _ st); [| by intros [= <-]].
  destruct (loop_body _ _ _ st) as [st1|] eqn:Hb; [| done].
  intros Hrun HR. apply (IH _ _ Hrun).
  apply loop_body_inv in Hb as (ls & Hls & ->).
  cbn [CY_dict triangulation_ctr].
  rewrite merge_round_entries, length_app, length_fmap, Nat2Z.inj_add.
  apply Radd; [done |].
  replace num_threads with (Z.of_nat (Z.to_nat num_threads)) at 1 by lia.
  by apply (Hround (tasks_run st)).
Qed.

(** X11. The counter bounds the dataset. When every task returns at most
    the [compute_chunk_size] triangulations it was asked for, the dataset
    never holds more entries than [triangulation_ctr] counts; when every
    task returns exactly that many, it holds exactly as many. *)
Theorem counter_bounds_dataset fuel st :
  0 <= num_threads →
  sampling_loop remote num_CYs max_dataset_size num_threads
    compute_chunk_size fuel initial_state = Done st →
  ((∀ i l, remote i compute_chunk_size = Ok l →
           Z.of_nat (length l) <= compute_chunk_size) →
   Z.of_nat (length (flatten (dict_values (CY_dict st))))
   <= triangulation_ctr st)
  ∧ ((∀ i l, remote i compute_chunk_size = Ok l →
             Z.of_nat (length l) = compute_chunk_size) →
     Z.of_nat (length (flatten (dict_values (CY_dict st))))
     = triangulation_ctr st).
Proof.
  intros Hw Hrun. split; intros Hret.
  - apply (loop_entries_from fuel Z.le ltac:(lia) ltac:(intros; lia) Hw Hret
             initial_state st Hrun).
    cbn. lia.
  - apply (loop_entries_from fuel eq ltac:(done) ltac:(intros; lia) Hw Hret
             initial_state st Hrun).
    done.
Qed.

End LoopMore.

Lemma loop_exit_witness :
  sampling_loop mock_three (Float64.round_int 3) 100 1 10 10 initial_state
    = Done demo_state
  ∧ (Float64.int_lt (Z.of_nat (length (CY_dict demo_state)))
       (Float64.round_int 3) = false
     ∨ 100 <= triangulation_ctr demo_state)
  ∧ NoDup (dict_keys (CY_dict demo_state))
  ∧ ∃ rounds : nat,
      (rounds < 10)%nat
      ∧ triangulation_ctr demo_state = Z.of_nat rounds * (1 * 10)
      ∧ tasks_run demo_state = (rounds * Z.to_nat 1)%nat.
Proof.
  assert (Hrun : sampling_loop mock_three (Float64.round_int 3) 100 1 10 10
                   initial_state = Done demo_state) by (vm_compute; reflexivity).
  split; [exact Hrun |].
  exact (loop_exit mock_three _ _ _ _ _ _ Hrun).
Defined.

Lemma loop_terminates_witness :
  (∀ i, ∃ l, mock_three i 10 = Ok l)
  ∧ 0 < 2 * 10
  ∧ 1000 <= Z.of_nat 50 * (2 * 10)
  ∧ (50 < 51)%nat
  ∧ ∃ st, sampling_loop mock_three (Float64.round_int 5) 1000 2 10 51
            initial_state = Done st
          ∧ (tasks_run st <= 50 * Z.to_nat 2)%nat
          ∧ triangulation_ctr st <= Z.of_nat 50 * (2 * 10).
Proof.
  assert (H1 : ∀ i, ∃ l, mock_three i 10 = Ok l)
    by (intros i; eexists; reflexivity).
  assert (H2 : 0 < 2 * 10) by lia.
  assert (H3 : 1000 <= Z.of_nat 50 * (2 * 10)) by lia.
  assert (H4 : (50 < 51)%nat) by lia.
  split; [exact H1 | split; [exact H2 | split; [exact H3 |
    split; [exact H4 |]]]].
  exact (loop_terminates mock_three (Float64.round_int 5) 1000 2 10 50 51
           H1 H2 H3 H4).
Defined.

Lemma loop_without_workers_witness :
  0 <= 0 ∧ 0 <= 100
  ∧ loop_cond (Float64.round_int (10 ^ 6)) 1000 initial_state = true
  ∧ sampling_loop mock_three (Float64.round_int (10 ^ 6)) 1000 0 100 7
      initial_state = OutOfFuel.
Proof.
  assert (H1 : 0 <= 0) by lia.
  assert (H2 : 0 <= 100) by lia.
  assert (H3 : loop_cond (Float64.round_int (10 ^ 6)) 1000 initial_state
               = true) by reflexivity.
  split; [exact H1 | split; [exact H2 | split; [exact H3 |]]].
  exact (loop_without_workers mock_three _ _ _ _ initial_state 7 H1 H2 H3).
Defined.

Lemma cap_overshoot_bounded_witness :
  0 < 100 ∧ 0 < 1 * 10
  ∧ sampling_loop mock_three (Float64.round_int 3) 100 1 10 10 initial_state
    = Done demo_state
  ∧ triangulation_ctr demo_state < 100 + 1 * 10.
Proof.
  assert (H1 : 0 < 100) by lia.
  assert (H2 : 0 < 1 * 10) by lia.
  assert (Hrun : sampling_loop mock_three (Float64.round_int 3) 100 1 10 10
                   initial_state = Done demo_state) by (vm_compute; reflexivity).
  split; [exact H1 | split; [exact H2 | split; [exact Hrun |]]].
  exact (proj1 (cap_overshoot_bounded mock_three _ _ _ _ _ _ H1 H2 Hrun)).
Defined.

Lemma task_error_aborts_witness :
  loop_cond (Float64.round_int 5) 1000 initial_state = true
  ∧ (1 < Z.to_nat 2)%nat
  ∧ mock_raising (tasks_run initial_state + 1) 10 = Raise
  ∧ sampling_loop mock_raising (Float64.round_int 5) 1000 2 10 4 initial_state
    = Aborted.
Proof.
  assert (H1 : loop_cond (Float64.round_int 5) 1000 initial_state = true)
    by reflexivity.
  assert (H2 : (1 < Z.to_nat 2)%nat) by (cbn; lia).
  assert (H3 : mock_raising (tasks_run initial_state + 1) 10 = Raise)
    by reflexivity.
  split; [exact H1 | split; [exact H2 | split; [exact H3 |]]].
  exact (task_error_aborts mock_raising _ _ _ _ initial_state 1 3 H1 H2 H3).
Defined.

Lemma counter_bounds_dataset_witness :
  0 <= 1
  ∧ sampling_loop mock_three (Float64.round_int 3) 100 1 10 10 initial_state
    = Done demo_state
  ∧ ((∀ i l, mock_three i 10 = Ok l → Z.of_nat (length l) = 10) →
     Z.of_nat (length (flatten (dict_values (CY_dict demo_state))))
     = triangulation_ctr demo_state).
Proof.
  assert (H1 : 0 <= 1) by lia.
  assert (Hrun : sampling_loop mock_three (Float64.round_int 3) 100 1 10 10
                   initial_state = Done demo_state) by (vm_compute; reflexivity).
  split; [exact H1 | split; [exact Hrun |]].
  exact (proj2 (counter_bounds_dataset mock_three _ _ _ _ _ _ H1 Hrun)).
Defined.

(** ** Sampling that always fails *)

Section AllFails.

Context `{CYTools}.

(** X12. Sampling failure is wasted compute, no more. When the sampler
    raises with both backends on every call, every task returns the empty
    list, the loop makes its rounds all the same, and it ends when the
    counter reaches the cap with an empty table: after exactly [r]
    rounds, [r] being the number of rounds that reach the cap. *)
Theorem all_sampling_fails (seeds : nat → Z) (num_CYs : Float64.float)
    (max_dataset_size num_threads compute_chunk_size : Z) (r fuel : nat) :
  (∀ c, random_triangulations_fast c = Raise) →
  Float64.int_lt 0 num_CYs = true →
  0 < num_threads * compute_chunk_size →
  max_dataset_size <= Z.of_nat r * (num_threads * compute_chunk_size) →
  (r ≠ 0%nat →
   (Z.of_nat r - 1) * (num_threads * compute_chunk_size) < max_dataset_size) →
  (r < fuel)%nat →
  (∀ i N, worker_remote seeds i N = Ok [])
  ∧ ∃ st, sampling_loop (worker_remote seeds) num_CYs max_dataset_size
            num_threads compute_chunk_size fuel initial_state = Done st
          ∧ CY_dict st = []
          ∧ triangulation_ctr st
            = Z.of_nat r * (num_threads * compute_chunk_size)
          ∧ tasks_run st = (r * Z.to_nat num_threads)%nat.
Proof.
  intros Hfail Htarget Hpos Hhi Hlo Hfuel.
  assert (Hempty : ∀ i N, worker_remote seeds i N = Ok []).
  { intros i N. unfold worker_remote, generate_CYs. by rewrite !Hfail. }
  split; [done |].
  destruct (loop_runs_to_cap (worker_remote seeds) num_CYs max_dataset_size
              num_threads compute_chunk_size [] ) with (r := r)
              (st := initial_state) (fuel := fuel)
    as (st & Hrun & Hctr & _ & Hsub); cbn [triangulation_ctr initial_state];
    try done; try lia.
  - intros i. exists []. by rewrite Hempty.
  - intros [|n] Hn; [done | cbn in Hn; lia].
  - split; [constructor | done].
  - exists st. split; [done |].
    destruct (loop_exit_from (worker_remote seeds) _ _ _ _ _ _ _ Hrun)
      as (_ & _ & rounds & _ & Hctr' & Htasks).
    cbn [triangulation_ctr tasks_run initial_state] in Hctr', Htasks.
    assert (Hkeys : dict_keys (CY_dict st) = []).
    { destruct (dict_keys (CY_dict st)) as [|k ks]; [done |].
      specialize (Hsub k ltac:(left)). by apply elem_of_nil in Hsub. }
    split; [by apply fmap_nil_inv in Hkeys |].
    cbn [triangulation_ctr initial_state] in Hctr.
    split; [lia |].
    assert (rounds = r) by nia. by subst.
Qed.

End AllFails.

Lemma all_sampling_fails_witness :
  (∀ c, @random_triangulations_fast mock_library_failing c = Raise)
  ∧ Float64.int_lt 0 (Float64.round_int 5) = true
  ∧ 0 < 2 * 10
  ∧ 95 <= Z.of_nat 5 * (2 * 10)
  ∧ (5%nat ≠ 0%nat → (Z.of_nat 5 - 1) * (2 * 10) < 95)
  ∧ (5 < 6)%nat
  ∧ ∃ st, sampling_loop (@worker_remote mock_library_failing (fun _ => 7))
            (Float64.round_int 5) 95 2 10 6 initial_state = Done st
          ∧ CY_dict st = []
          ∧ triangulation_ctr st = Z.of_nat 5 * (2 * 10)
          ∧ tasks_run st = (5 * Z.to_nat 2)%nat.
Proof.
  assert (H1 : ∀ c, @random_triangulations_fast mock_library_failing c = Raise)
    by reflexivity.
  assert (H2 : Float64.int_lt 0 (Float64.round_int 5) = true) by reflexivity.
  assert (H3 : 0 < 2 * 10) by lia.
  assert (H4 : 95 <= Z.of_nat 5 * (2 * 10)) by lia.
  assert (H5 : 5%nat ≠ 0%nat → (Z.of_nat 5 - 1) * (2 * 10) < 95) by lia.
  assert (H6 : (5 < 6)%nat) by lia.
  split; [exact H1 | split; [exact H2 | split; [exact H3 | split; [exact H4 |
    split; [exact H5 | split; [exact H6 |]]]]]].
  exact (proj2 (@all_sampling_fails mock_library_failing (fun _ => 7)
                  (Float64.round_int 5) 95 2 10 5 6 H1 H2 H3 H4 H5 H6)).
Defined.

(** ** The split at the edges *)

Lemma slice_index_all len n : Z.of_nat len <= n → slice_index len n = len.
Proof.
  intros Hn. unfold slice_index.
  replace (n <? 0) with false by (symmetry; apply Z.ltb_ge; lia).
  rewrite Z.min_r by lia. lia.
Qed.

Lemma slice_index_none len n : n <= - Z.of_nat len → slice_index len n = 0%nat.
Proof.
  intros Hn. unfold slice_index. destruct (Z.ltb_spec n 0); lia.
Qed.

Lemma slice_index_from_end len n :
  - Z.of_nat len <= n < 0 → slice_index len n = Z.to_nat (Z.of_nat len + n).
Proof.
  intros Hn. unfold slice_index.
  replace (n <? 0) with true by (symmetry; apply Z.ltb_lt; lia).
  by rewrite Z.max_r by lia.
Qed.

Lemma train_dataset_size_one (len : nat) :
  Z.of_nat len < 2 ^ 53 →
  train_dataset_size len Float64.one = Ok (Z.of_nat len).
Proof.
  intros Hlen.
  assert (Hone : Float64.one = S754_finite false 4503599627370496 (-52))
    by (by vm_compute).
  destruct (train_dataset_size_unit len Float64.one Hlen)
    as (n & Hn & Hrange & _ & Hfloor & _).
  - rewrite Hone. by vm_compute.
  - rewrite Hone. by vm_compute.
  - rewrite Hone. by vm_compute.
  - rewrite Hn. f_equal. rewrite Hone, floor_exact_finite in Hfloor by lia.
    change (2 ^ (- (-52))) with 4503599627370496 in Hfloor.
    change (Z.pos 4503599627370496) with 4503599627370496 in Hfloor.
    rewrite Z.div_mul in Hfloor by done. lia.
Qed.

Lemma train_dataset_size_zero (len : nat) :
  Z.of_nat len < 2 ^ 53 → train_dataset_size len Float64.zero = Ok 0.
Proof.
  intros Hlen. unfold train_dataset_size, Float64.int_mul, Float64.of_int.
  destruct (decide (Z.of_nat len = 0)) as [->|Hnz]; [done |].
  destruct (round_int_exact (Z.of_nat len)) as (mK & eK & -> & _); [lia |].
  done.
Qed.

(** X13. The split at ratio 1 and at ratio 0. With [train_test_split =
    1.0] every manifold goes to train and the test dataset is empty; with
    [0.0] the train dataset is empty and every manifold goes to test. No
    exception is raised in either case. *)
Theorem split_at_extremes {A} (dataset : list (list A)) :
  Z.of_nat (length dataset) < 2 ^ 53 →
  split_dataset dataset Float64.one = Ok (flatten dataset, [])
  ∧ split_dataset dataset Float64.zero = Ok ([], flatten dataset).
Proof.
  intros Hlen. unfold split_dataset. split.
  - rewrite train_dataset_size_one by done. cbn [mbind res_bind].
    unfold slice_to, slice_from.
    by rewrite slice_index_all, take_ge, drop_ge by lia.
  - rewrite train_dataset_size_zero by done. cbn [mbind res_bind].
    unfold slice_to, slice_from.
    by rewrite (slice_index_in_range _ 0) by lia.
Qed.

Lemma split_at_extremes_witness :
  Z.of_nat (length [[1; 2]; [3]; [4; 5; 6]]) < 2 ^ 53
  ∧ split_dataset [[1; 2]; [3]; [4; 5; 6]] Float64.one
    = Ok (flatten [[1; 2]; [3]; [4; 5; 6]], [])
  ∧ split_dataset [[1; 2]; [3]; [4; 5; 6]] Float64.zero
    = Ok ([], flatten [[1; 2]; [3]; [4; 5; 6]]).
Proof.
  assert (Hlen : Z.of_nat (length [[1; 2]; [3]; [4; 5; 6]]) < 2 ^ 53)
    by reflexivity.
  split; [exact Hlen |]. exact (split_at_extremes _ Hlen).
Defined.

(** X14. A ratio that is not a number stops the split. With
    [train_test_split] NaN or an infinity, [int(...)] raises and no
    dataset is produced, whatever the dataset. *)
Theorem split_rejects_non_finite {A} (dataset : list (list A))
    (train_test_split : Float64.float) :
  Float64.is_finite train_test_split = false →
  split_dataset dataset train_test_split = Raise.
Proof.
  intros Hr. unfold split_dataset, train_dataset_size, Float64.int_mul,
    Float64.of_int.
  destruct (Float64.round_int (Z.of_nat (length dataset))) as [s|s| |s m e];
    destruct train_test_split as [s'|s'| |s' m' e']; done.
Qed.

Lemma split_rejects_non_finite_witness :
  Float64.is_finite S754_nan = false
  ∧ split_dataset [[1; 2]; [3]] S754_nan = Raise.
Proof.
  assert (H : Float64.is_finite S754_nan = false) by reflexivity.
  split; [exact H |]. exact (split_rejects_non_finite _ _ H).
Defined.

(** X15. A ratio outside [[0, 1]] is not rejected. Whatever index
    [int(len(dataset) * train_test_split)] returns, the split returns too:
    an index at or beyond the number of manifolds sends every manifold to
    train; a negative index counts from the end, so that many manifolds
    at the end go to test; at or below minus the number of manifolds,
    every manifold goes to test. *)
Theorem split_out_of_range {A} (dataset : list (list A))
    (train_test_split : Float64.float) (size : Z) :
  train_dataset_size (length dataset) train_test_split = Ok size →
  (Z.of_nat (length dataset) <= size →
   split_dataset dataset train_test_split = Ok (flatten dataset, []))
  ∧ (size <= - Z.of_nat (length dataset) →
     split_dataset dataset train_test_split = Ok ([], flatten dataset))
  ∧ (- Z.of_nat (length dataset) <= size < 0 →
     split_dataset dataset train_test_split
     = Ok (flatten (take (length dataset - Z.to_nat (- size)) dataset),
           flatten (drop (length dataset - Z.to_nat (- size)) dataset))
     ∧ length (drop (length dataset - Z.to_nat (- size)) dataset)
       = Z.to_nat (- size)).
Proof.
  intros Hsize. unfold split_dataset. rewrite Hsize. cbn.
  unfold slice_to, slice_from. split; [| split].
  - intros Hn. by rewrite slice_index_all, take_ge, drop_ge by lia.
  - intros Hn. by rewrite slice_index_none by lia.
  - intros Hn. rewrite slice_index_from_end by lia.
    replace (Z.to_nat (Z.of_nat (length dataset) + size))
      with (length dataset - Z.to_nat (- size))%nat by lia.
    split; [done |]. rewrite length_drop. lia.
Qed.

Lemma split_out_of_range_witness :
  train_dataset_size (length [[1; 2]; [3]]) (Float64.literal 3 2) = Ok 3
  ∧ split_dataset [[1; 2]; [3]] (Float64.literal 3 2)
    = Ok (flatten [[1; 2]; [3]], []).
Proof.
  assert (H : train_dataset_size (length [[1; 2]; [3]]) (Float64.literal 3 2)
              = Ok 3) by (vm_compute; reflexivity).
  split; [exact H |].
  apply (proj1 (split_out_of_range [[1; 2]; [3]] _ 3 H)). cbn. lia.
Defined.

(** ** Shapes after normalisation *)



(** ** The model: shapes, range and composition *)

Module ModelMore.

Import Model.
Local Open Scope Qc_scope.

Lemma relu1_ge_0 v : 0 <= relu1 v.
Proof.
  unfold relu1. case_decide; [by apply Qclt_le_weak | apply Qcle_refl].
Qed.

Lemma relu_ge_0 (x : tensor) : Forall (fun v => 0 <= v) (relu x).
Proof.
  unfold relu. apply Forall_forall. intros v Hv.
  apply list_elem_of_In, in_map_iff in Hv as (u & <- & _). apply relu1_ge_0.
Qed.

Lemma dropout_length p m (y : tensor) : length (dropout p m y) = length y.
Proof. destruct m; [apply length_imap | done]. Qed.

Lemma layer_forward_ok width (l : ResDenseLayer) m (x : tensor) :
  linear_shape width width (dense l) → length x = width →
  ∃ y, layer_forward l m x = Ok y ∧ length y = width
       ∧ Forall (fun v => 0 <= v) y.
Proof.
  intros Hshape Hx. unfold layer_forward.
  destruct (ModelFacts.linear_ok width width (dense l) x Hshape Hx)
    as (d & -> & Hd).
  cbn [mbind res_bind]. unfold tensor_add.
  rewrite decide_True by (by rewrite dropout_length, length_map, Hd).
  cbn [mbind res_bind]. eexists. split; [done |].
  split; [| apply relu_ge_0].
  rewrite ModelFacts.relu_length, length_zip_with, dropout_length, length_map.
  lia.
Qed.

Lemma layer_forward_mismatch width (l : ResDenseLayer) m (x : tensor) :
  linear_shape width width (dense l) → length x ≠ width →
  layer_forward l m x = Raise.
Proof.
  intros (Hw & Hb & Hrows) Hx. unfold layer_forward, linear.
  case_decide as Hdec; [| done]. cbn [mbind res_bind].
  destruct Hdec as [Hall _].
  destruct (weight (dense l)) as [|w ws] eqn:Hweight.
  - unfold tensor_add. cbn in Hw. subst width.
    rewrite decide_False; [done |].
    rewrite dropout_length, length_map, length_zip_with. cbn. lia.
  - apply Forall_cons in Hall as [Hw1 _]. apply Forall_cons in Hrows as [Hw2 _].
    congruence.
Qed.

Lemma block_forward_ok width (b : ResDenseBlock) : ∀ ms (x : tensor),
  Forall (fun l => linear_shape width width (dense l)) b →
  length x = width →
  ∃ y, block_forward b ms x = Ok y ∧ length y = width
       ∧ (b ≠ [] → Forall (fun v => 0 <= v) y).
Proof.
  induction b as [|l b IH]; intros ms x Hall Hx; cbn [block_forward].
  - by exists x.
  - apply Forall_cons in Hall as [Hl Hall].
    destruct (layer_forward_ok width l (ms 0%nat) x Hl Hx)
      as (y & -> & Hy & Hpos).
    cbn [mbind res_bind].
    destruct (IH (fun i => ms (S i)) y Hall Hy) as (z & Hz & Hlen & Hnn).
    exists z. split; [done |]. split; [done |]. intros _.
    destruct b as [|l' b']; [| by apply Hnn].
    cbn in Hz. by injection Hz as <-.
Qed.

Lemma block_forward_app (b1 b2 : ResDenseBlock) : ∀ ms (x : tensor),
  block_forward (b1 ++ b2) ms x
  = (y ← block_forward b1 ms x;
     block_forward b2 (fun i => ms (length b1 + i)%nat) y).
Proof.
  induction b1 as [|l b1 IH]; intros ms x; [done |].
  cbn [app block_forward]. destruct (layer_forward l (ms 0%nat) x); [| done].
  cbn [mbind res_bind]. by rewrite IH.
Qed.

End ModelMore.

(** X17. A residual layer keeps the size and returns nonnegative
    activations. For a layer whose [dense] is [width] by [width], whatever
    its weights, gate, dropout rate, mode and mask: on a tensor of size
    [width] the forward pass returns a tensor of size [width] with no
    negative entry; on a tensor of any other size it raises. *)
Theorem layer_forward_shape (width : nat) (l : Model.ResDenseLayer)
    (m : Model.mode) (x : Model.tensor) :
  Model.linear_shape width width (Model.dense l) →
  (length x = width →
   ∃ y, Model.layer_forward l m x = Ok y ∧ length y = width
        ∧ Forall (fun v => (0 <= v)%Qc) y)
  ∧ (length x ≠ width → Model.layer_forward l m x = Raise).
Proof.
  intros Hshape. split.
  - by apply ModelMore.layer_forward_ok.
  - by apply ModelMore.layer_forward_mismatch.
Qed.

Lemma layer_forward_shape_witness :
  Model.linear_shape 2 2 (Model.dense Demo.layer_trained)
  ∧ length Demo.x = 2%nat
  ∧ ∃ y, Model.layer_forward Demo.layer_trained Demo.keep_even Demo.x = Ok y
         ∧ length y = 2%nat ∧ Forall (fun v => (0 <= v)%Qc) y.
Proof.
  assert (Hs : Model.linear_shape 2 2 (Model.dense Demo.layer_trained))
    by (repeat split; repeat constructor).
  assert (Hx : length Demo.x = 2%nat) by reflexivity.
  split; [exact Hs | split; [exact Hx |]].
  exact (proj1 (layer_forward_shape 2 Demo.layer_trained Demo.keep_even
                  Demo.x Hs) Hx).
Defined.

(** X18. A residual block is the composition of its layers. The forward
    pass of a block made of two runs of layers is the pass of the first
    run followed by the pass of the second, each layer with its own
    dropout mask; a block of depth 0 returns its input; and a block of
    [width] by [width] layers keeps the size [width], with nonnegative
    output as soon as it has a layer. *)
Theorem block_forward_composes (width : nat) (b1 b2 : Model.ResDenseBlock)
    (ms : nat → Model.mode) (x : Model.tensor) :
  Model.block_forward (b1 ++ b2) ms x
  = (y ← Model.block_forward b1 ms x;
     Model.block_forward b2 (fun i => ms (length b1 + i)%nat) y)
  ∧ Model.block_forward [] ms x = Ok x
  ∧ (Forall (fun l => Model.linear_shape width width (Model.dense l))
       (b1 ++ b2) →
     length x = width →
     ∃ y, Model.block_forward (b1 ++ b2) ms x = Ok y ∧ length y = width
          ∧ (b1 ++ b2 ≠ [] → Forall (fun v => (0 <= v)%Qc) y)).
Proof.
  split; [apply ModelMore.block_forward_app |]. split; [done |].
  apply ModelMore.block_forward_ok.
Qed.

Lemma block_forward_composes_witness :
  Forall (fun l => Model.linear_shape 2 2 (Model.dense l))
    ([Demo.layer_trained] ++ [Demo.layer_init])
  ∧ length Demo.x = 2%nat
  ∧ ∃ y, Model.block_forward ([Demo.layer_trained] ++ [Demo.layer_init])
           (fun _ => Demo.keep_even) Demo.x = Ok y
         ∧ length y = 2%nat.
Proof.
  assert (Hs : Forall (fun l => Model.linear_shape 2 2 (Model.dense l))
                 ([Demo.layer_trained] ++ [Demo.layer_init]))
    by (repeat constructor).
  assert (Hx : length Demo.x = 2%nat) by reflexivity.
  split; [exact Hs | split; [exact Hx |]].
  destruct (proj2 (proj2 (block_forward_composes 2 [Demo.layer_trained]
                            [Demo.layer_init] (fun _ => Demo.keep_even)
                            Demo.x)) Hs Hx) as (y & Hy & Hlen & _).
  exists y. split; [exact Hy | exact Hlen].
Defined.

(** X19. The network returns one scalar per sample. For a network whose
    first layer is [input_size] by [width], whose block layers are [width]
    by [width] and whose last layer is [width] by 1: on a sample of size
    [input_size] the forward pass returns a tensor with a single entry,
    in either mode and under every mask; on a sample of another size it
    raises (for a positive [width]). *)
Theorem net_forward_scalar (input_size width : nat) (n : Model.ResDenseNet)
    (ms : nat → Model.mode) (x : Model.tensor) :
  Model.linear_shape input_size width (Model.densefirst n) →
  Forall (fun l => Model.linear_shape width width (Model.dense l))
    (Model.rdb1 n) →
  Model.linear_shape width 1 (Model.denselast n) →
  (length x = input_size → ∃ v, Model.net_forward n ms x = Ok [v])
  ∧ (length x ≠ input_size → (0 < width)%nat →
     Model.net_forward n ms x = Raise).
Proof.
  intros Hfirst Hblock Hlast. unfold Model.net_forward. split.
  - intros Hx.
    destruct (ModelFacts.linear_ok input_size width _ x Hfirst Hx)
      as (y & -> & Hy).
    cbn [mbind res_bind].
    destruct (ModelMore.block_forward_ok width (Model.rdb1 n) ms
                (Model.relu y) Hblock)
      as (z & -> & Hz & _); [by rewrite ModelFacts.relu_length |].
    cbn [mbind res_bind].
    destruct (ModelFacts.linear_ok width 1 _ z Hlast Hz) as (out & -> & Hout).
    destruct out as [|v [|v' out]]; try done. by exists v.
  - intros Hx Hwidth. destruct Hfirst as (Hw & _ & Hrows).
    unfold Model.linear. case_decide as Hdec; [| done].
    destruct Hdec as [Hall _].
    destruct (Model.weight (Model.densefirst n)) as [|w ws]; [cbn in Hw; lia |].
    apply Forall_cons in Hall as [Hw1 _]. apply Forall_cons in Hrows as [Hw2 _].
    congruence.
Qed.

Lemma net_forward_scalar_witness :
  Model.linear_shape 3 2 (Model.densefirst DemoNet.net_trained)
  ∧ Forall (fun l => Model.linear_shape 2 2 (Model.dense l))
      (Model.rdb1 DemoNet.net_trained)
  ∧ Model.linear_shape 2 1 (Model.denselast DemoNet.net_trained)
  ∧ length DemoNet.sample = 3%nat
  ∧ ∃ v, Model.net_forward DemoNet.net_trained (fun _ => Demo.keep_even)
           DemoNet.sample = Ok [v].
Proof.
  assert (H1 : Model.linear_shape 3 2 (Model.densefirst DemoNet.net_trained))
    by (repeat split; repeat constructor).
  assert (H2 : Forall (fun l => Model.linear_shape 2 2 (Model.dense l))
                 (Model.rdb1 DemoNet.net_trained))
    by (repeat constructor).
  assert (H3 : Model.linear_shape 2 1 (Model.denselast DemoNet.net_trained))
    by (repeat split; repeat constructor).
  assert (H4 : length DemoNet.sample = 3%nat) by reflexivity.
  split; [exact H1 | split; [exact H2 | split; [exact H3 |
    split; [exact H4 |]]]].
  exact (proj1 (net_forward_scalar 3 2 DemoNet.net_trained
                  (fun _ => Demo.keep_even) DemoNet.sample H1 H2 H3) H4).
Defined.



(** The trained demonstration network does depend on its block: its output
    differs from that of the network without the block. *)
Example net_trained_is_not_shallow :
  Demo.fractions
    (Model.net_forward DemoNet.net_trained (fun _ => Model.Evaluation)
       DemoNet.sample)
  ≠ Demo.fractions
      (Model.net_forward
         (Model.mkNet DemoNet.first [] DemoNet.last)
         (fun _ => Model.Evaluation) DemoNet.sample).
Proof. by vm_compute. Qed.

(** ** When two tensors share a fingerprint *)

(** X21. Two coo tensors of the same width are merged by the dedup table
    exactly when they have the same number of rows and agree column by
    column as multisets: equal fingerprints mean nothing more and nothing
    less. *)
Theorem fingerprint_equal_iff d (a a' : Np.matrix) :
  Np.rectangular d a → Np.rectangular d a' →
  fingerprint a = fingerprint a'
  ↔ length a = length a'
    ∧ ∀ j, (j < d)%nat → Np.column j a ≡ₚ Np.column j a'.
Proof.
  intros Ha Ha'. split.
  - unfold fingerprint, tuple_of_rows. rewrite !map_id. intros Heq.
    split; [by rewrite <- (sort_axis0_length a), Heq, sort_axis0_length |].
    intros j Hj.
    assert (Hsort : Np.sort1 (Np.column j a) = Np.sort1 (Np.column j a'))
      by (by rewrite <- !(sort_axis0_column d), Heq by done).
    unfold Np.sort1 in Hsort.
    by rewrite <- (merge_sort_Permutation Z.le (Np.column j a)), Hsort,
      merge_sort_Permutation.
  - intros [Hlen Hcols]. unfold fingerprint. f_equal.
    by apply (sort_axis0_columns d).
Qed.

Lemma fingerprint_equal_iff_witness :
  Np.rectangular 4 [[0; 0; 0; 5]; [1; 1; 1; 7]]
  ∧ Np.rectangular 4 [[0; 0; 0; 5]; [1; 1; 1; 8]]
  ∧ fingerprint [[0; 0; 0; 5]; [1; 1; 1; 7]]
    ≠ fingerprint [[0; 0; 0; 5]; [1; 1; 1; 8]].
Proof.
  assert (H1 : Np.rectangular 4 [[0; 0; 0; 5]; [1; 1; 1; 7]])
    by (repeat constructor).
  assert (H2 : Np.rectangular 4 [[0; 0; 0; 5]; [1; 1; 1; 8]])
    by (repeat constructor).
  split; [exact H1 | split; [exact H2 |]].
  intros Heq.
  destruct (proj1 (fingerprint_equal_iff 4 _ _ H1 H2) Heq) as [_ Hcols].
  specialize (Hcols 3%nat ltac:(lia)). cbn in Hcols.
  assert (Hin : 7 ∈ [5; 8]) by (rewrite <- Hcols; right; left).
  rewrite !elem_of_cons, elem_of_nil in Hin. lia.
Defined.
